(** * DragnDrop: the file-transfer engine

    A shallow embedding of the transfer engine of the DragnDrop dual-pane
    file manager: the [Transfer] runnable of [utils.py] (the byte mover and
    the job around it) and the [WorkerManager] of [view.py] (the
    coordinator that aggregates progress on the GUI thread).

    Conventions.
    - Python [int] is [Z]; the flag [running] (stored as 0/1 and only ever
      tested for truth) is [bool]; [str] is [string]; file contents are
      [list byte].
    - A Python [float] that is the quotient of two integers is the exact
      rational [Q]; [int(x)] is truncation towards zero.
    - A dictionary whose iteration order is observed by the code
      ([_active_workers]) is an association list in insertion order; the
      dictionaries that are only summed or tested with [all]
      ([_workers_progress], [_transferred]) are [gmap]s.
    - [Transfer] objects are shared between the thread pool, the
      coordinator's dictionary and the worker thread, so the coordinator
      state carries a heap of objects and the dictionary holds addresses.
    - Signals emitted by a job are collected, in emission order, in the
      [emitted] log; system calls are collected in [calls].

    What the model assumes of the libraries the code calls.
    - [progress] is declared [pyqtSignal(str, int)] and is emitted with
      the float [(progress * 100) / self.size]: the [emitted] log records
      the integer part of the float handed to [emit] (the truncation
      [int] computes); for files below 2^53 / 100 bytes the float
      quotient and the exact rational have the same truncation.  Which
      integer PyQt hands to the connected slot for such a float is not
      fixed here: what is proved of the coordinator is stated for the
      values its slots receive, whatever they are; an [int] such as the
      literal 100 of the cancel, error and duplicate paths is received
      as it was emitted.
    - A read on a regular file returns the bytes asked for, or what is
      left of the file; reads and writes fail only where the environment
      of the run ([Env]) says so, and closing the two streams does not
      fail.
    - [shutil.copystat] copies mode bits and times to the destination;
      neither is part of the file system modelled here, the call is
      recorded.
    - Paths are compared as strings; nobody but the job changes the file
      system while it runs, and the directories above a path exist.
    - [convert_bytes], which formats the remaining bytes for the label,
      is left out: [refresh_progress] is given by the numbers it
      displays. *)

From Stdlib Require Import ZArith QArith Lia List Ascii String.
From Stdlib.Strings Require Byte.
From stdpp Require Import base option list gmap strings.

Local Open Scope string_scope.
Local Open Scope list_scope.
Local Open Scope Z_scope.

Definition byte : Type := Byte.byte.

(** ** Python values and exceptions *)

Inductive PyExn :=
| PermissionError
| IsADirectoryError
| FileNotFoundError
| KeyError (key : string).

(** How a call ends: it returns a value or an exception escapes from it. *)
Inductive Completion (A : Type) :=
| Returned (a : A)
| Raised (e : PyExn).
Arguments Returned {A} a.
Arguments Raised {A} e.

(** [int(x)] for a float [x]: truncation towards zero. *)
Definition py_int (q : Q) : Z := Z.quot (Qnum q) (Zpos (Qden q)).

(** [a / b] for two integers, [b <> 0]: true division. *)
Definition py_truediv (a b : Z) : Q := (inject_Z a / inject_Z b)%Q.

(** ** [os.path] and the file system *)

(** The platform-dependent part of [os]: the separators, [os.path.join],
    [os.path.basename], and what [open] raises on a directory (Windows
    answers [PermissionError], POSIX [IsADirectoryError]). *)
Class Platform := {
  os_path_sep : ascii;
  os_path_altsep : option ascii;
  os_path_join : string -> string -> string;
  os_path_basename : string -> string;
  open_directory_error : PyExn
}.

(** [s.rstrip(chars)] *)
Fixpoint rstrip (chars : list ascii) (s : string) : string :=
  match s with
  | EmptyString => EmptyString
  | String c s' =>
      match rstrip chars s' with
      | EmptyString =>
          if bool_decide (c ∈ chars) then EmptyString else String c EmptyString
      | r => String c r
      end
  end.

Module Posix.

Definition slash : ascii := "/"%char.

Fixpoint has_slash (p : string) : bool :=
  match p with
  | EmptyString => false
  | String c p' => bool_decide (c = slash) || has_slash p'
  end.

(** [posixpath.basename]: what follows the last slash. *)
Fixpoint basename (p : string) : string :=
  match p with
  | EmptyString => EmptyString
  | String c p' =>
      if has_slash p' then basename p'
      else if bool_decide (c = slash) then p' else p
  end.

Fixpoint ends_with_slash (p : string) : bool :=
  match p with
  | EmptyString => false
  | String c EmptyString => bool_decide (c = slash)
  | String _ p' => ends_with_slash p'
  end.

(** [posixpath.join] of two components. *)
Definition join (a b : string) : string :=
  match b with
  | String c _ =>
      if bool_decide (c = slash) then b
      else if bool_decide (a = "") || ends_with_slash a then String.append a b
      else String.append a (String slash b)
  | EmptyString =>
      if bool_decide (a = "") || ends_with_slash a then a
      else String.append a (String slash EmptyString)
  end.

#[global] Instance platform : Platform := {|
  os_path_sep := slash;
  os_path_altsep := None;
  os_path_join := join;
  os_path_basename := basename;
  open_directory_error := IsADirectoryError
|}.

End Posix.

(** Files with their contents, directories, and the paths on which
    [open] for reading, respectively for writing, is refused. *)
Record FileSystem := {
  files : gmap string (list byte);
  dirs : gset string;
  read_denied : gset string;
  write_denied : gset string
}.

Definition os_path_isdir (fs : FileSystem) (p : string) : bool :=
  bool_decide (p ∈ dirs fs).

Definition os_path_exists (fs : FileSystem) (p : string) : bool :=
  bool_decide (p ∈ dirs fs) || bool_decide (is_Some (files fs !! p)).

Definition set_files (f : gmap string (list byte)) (fs : FileSystem) : FileSystem :=
  {| files := f; dirs := dirs fs;
     read_denied := read_denied fs; write_denied := write_denied fs |}.

(** [open(p, 'rb')]: the bytes the stream will yield. *)
Definition open_rb `{Platform} (fs : FileSystem) (p : string) : list byte + PyExn :=
  if bool_decide (p ∈ read_denied fs) then inr PermissionError
  else if os_path_isdir fs p then inr open_directory_error
  else match files fs !! p with
       | Some data => inl data
       | None => inr FileNotFoundError
       end.

(** [open(p, 'wb')]: creates the file, or truncates it. *)
Definition open_wb `{Platform} (fs : FileSystem) (p : string) : FileSystem + PyExn :=
  if bool_decide (p ∈ write_denied fs) then inr PermissionError
  else if os_path_isdir fs p then inr open_directory_error
  else inl (set_files (<[p := []]> (files fs)) fs).

(** [f.write(chunk)] on a stream opened on [p]. *)
Definition fs_write (p : string) (chunk : list byte) (fs : FileSystem) : FileSystem :=
  set_files (<[p := default [] (files fs !! p) ++ chunk]> (files fs)) fs.

(** [os.unlink(p)]: raises when [p] is not a file. *)
Definition os_unlink (fs : FileSystem) (p : string) : option FileSystem :=
  match files fs !! p with
  | Some _ => Some (set_files (delete p (files fs)) fs)
  | None => None
  end.

(** ** Signals, system calls and the world a job runs in *)

(** [TransferSignals]: [finished(str)], [progress(str, int)],
    [transferred(str, float)], [duplicate(str)]. *)
Inductive Signal :=
| finished (job : string)
| progress (job : string) (percent : Z)
| transferred (job : string) (moved : Z)
| duplicate (file : string).

Inductive SysCall :=
| sys_open_rb (p : string)
| sys_open_wb (p : string)
| sys_read (n : Z)
| sys_write (p : string) (n : Z)
| sys_copystat (s d : string)
| sys_unlink (p : string)
| sys_send2trash (p : string).

Record World := {
  fs : FileSystem;
  emitted : list Signal;
  calls : list SysCall
}.

Definition emit (s : Signal) (w : World) : World :=
  {| fs := fs w; emitted := emitted w ++ [s]; calls := calls w |}.

Definition call (c : SysCall) (w : World) : World :=
  {| fs := fs w; emitted := emitted w; calls := calls w ++ [c] |}.

Definition set_fs (f : FileSystem) (w : World) : World :=
  {| fs := f; emitted := emitted w; calls := calls w |}.

(** What the other threads and the devices do while a copy loop runs,
    per iteration of the loop (the first iteration is 1):
    [cancel_req i] - the GUI thread writes [running = 0] during iteration
    [i], before the loop tests the flag; [read_fails i], [write_fails i] -
    the read, respectively the write, of iteration [i] raises.  A write
    of the flag that comes before the loop's own [self.running = 1] is
    overwritten by it and has no index here. *)
Record Env := {
  cancel_req : nat -> bool;
  read_fails : nat -> bool;
  write_fails : nat -> bool
}.

(** ** utils.py *)

Inductive Outcome := ON_SUCCESS | ON_CANCEL | ON_ERROR.

Definition outcome_code (o : Outcome) : Z :=
  match o with ON_SUCCESS => 1 | ON_CANCEL => 2 | ON_ERROR => 3 end.

Record Transfer := {
  src : string;
  dst : string;
  size : Z;
  running : bool;
  job_id : string
}.

Definition set_running (b : bool) (t : Transfer) : Transfer :=
  {| src := src t; dst := dst t; size := size t; running := b; job_id := job_id t |}.

Section Utils.
Context `{Platform}.

Definition sep_chars : list ascii :=
  os_path_sep :: match os_path_altsep with Some c => [c] | None => [] end.

(** [_basename]: strip trailing separators, then [os.path.basename]. *)
Definition _basename (path : string) : string :=
  os_path_basename (rstrip sep_chars path).

(** [file_exists(src, dst)] *)
Definition file_exists (fs : FileSystem) (src dst : string) : bool :=
  let dst := if os_path_isdir fs dst then os_path_join dst (_basename src) else dst in
  if os_path_exists fs dst then true else false.

(** [delete_file(filename, trash)] *)
Definition delete_file (filename : string) (trash : bool) (w : World) : World :=
  if trash then
    let w := call (sys_send2trash filename) w in
    match os_unlink (fs w) filename with
    | Some fs' => set_fs fs' w   (* the file is now in the trash *)
    | None => w                  (* "Cannot trash file" *)
    end
  else
    let w := call (sys_unlink filename) w in
    match os_unlink (fs w) filename with
    | Some fs' => set_fs fs' w
    | None => w   (* "Cannot remove file" *)
    end.

(** [Transfer.__init__(src, dst, size)]; [uuid] is the fresh identifier
    drawn by [uuid.uuid4()]. *)
Definition Transfer_init (fs : FileSystem) (src dst : string) (size : Z)
    (uuid : string) : Transfer :=
  {| src := src;
     dst := if os_path_isdir fs dst then os_path_join dst (_basename src) else dst;
     size := size;
     running := false;
     job_id := uuid |}.

(** The [except Exception] handler shared by both copy loops. *)
Definition on_exception (self : Transfer) (w : World) : Transfer * World * Outcome :=
  (set_running false self,
   emit (finished (job_id self)) (emit (progress (job_id self) 100) w),
   ON_ERROR).

(** The value carried by the [progress(str, int)] signal for
    [percentage = (progress * 100) / self.size]. *)
Definition percentage (moved : Z) (self : Transfer) : Z :=
  py_int (py_truediv (moved * 100) (size self)).

(** The [while 1] loop of [_copyfileobj_readinto]; [fsrc] is what the
    source stream still has to yield, [moved] is the local [progress],
    [i] numbers the iteration.  [None]: the fuel ran out. *)
Fixpoint readinto_loop (fuel : nat) (E : Env) (buflen : Z) (i : nat) (moved : Z)
    (fsrc : list byte) (self : Transfer) (w : World)
    : option (Transfer * World * Outcome) :=
  match fuel with
  | O => None
  | S fuel' =>
      if read_fails E i then Some (on_exception self w)
      else
        let mv := take (Z.to_nat buflen) fsrc in
        let n := Z.of_nat (length mv) in
        let w := call (sys_read n) w in
        if n =? 0 then
          Some (set_running false self, emit (finished (job_id self)) w, ON_SUCCESS)
        else if write_fails E i then Some (on_exception self w)
        else
          let w := set_fs (fs_write (dst self) mv (fs w)) (call (sys_write (dst self) n) w) in
          let moved := moved + n in
          if size self =? 0 then Some (on_exception self w)   (* ZeroDivisionError *)
          else
            let w := emit (transferred (job_id self) moved) w in
            let w := emit (progress (job_id self) (percentage moved self)) w in
            let self := if cancel_req E i then set_running false self else self in
            if negb (running self) then
              Some (self,
                    emit (finished (job_id self)) (emit (progress (job_id self) 100) w),
                    ON_CANCEL)
            else readinto_loop fuel' E buflen (S i) moved (drop (Z.to_nat buflen) fsrc) self w
  end.

(** [_copyfileobj_readinto(fsrc, fdst, length)] *)
Definition _copyfileobj_readinto (E : Env) (fsrc : list byte) (buflen : Z)
    (self : Transfer) (w : World) : option (Transfer * World * Outcome) :=
  readinto_loop (S (length fsrc)) E buflen 1 0 fsrc (set_running true self) w.

(** The [while 1] loop of [_copyfileobj]. *)
Fixpoint copyfileobj_loop (fuel : nat) (E : Env) (buflen : Z) (i : nat) (moved : Z)
    (fsrc : list byte) (self : Transfer) (w : World)
    : option (Transfer * World * Outcome) :=
  match fuel with
  | O => None
  | S fuel' =>
      if read_fails E i then Some (on_exception self w)
      else
        let buff := take (Z.to_nat buflen) fsrc in
        let w := call (sys_read (Z.of_nat (length buff))) w in
        match buff with
        | [] => Some (set_running false self, emit (finished (job_id self)) w, ON_SUCCESS)
        | _ =>
          if write_fails E i then Some (on_exception self w)
          else
            let n := Z.of_nat (length buff) in
            let w := set_fs (fs_write (dst self) buff (fs w)) (call (sys_write (dst self) n) w) in
            let moved := moved + n in
            if size self =? 0 then Some (on_exception self w)   (* ZeroDivisionError *)
            else
              let w := emit (transferred (job_id self) moved) w in
              let w := emit (progress (job_id self) (percentage moved self)) w in
              let self := if cancel_req E i then set_running false self else self in
              if negb (running self) then
                Some (self,
                      emit (finished (job_id self)) (emit (progress (job_id self) 100) w),
                      ON_CANCEL)
              else copyfileobj_loop fuel' E buflen (S i) moved (drop (Z.to_nat buflen) fsrc) self w
        end
  end.

(** [_copyfileobj(fsrc, fdst, length=1048576)] *)
Definition _copyfileobj (E : Env) (fsrc : list byte) (buflen : Z)
    (self : Transfer) (w : World) : option (Transfer * World * Outcome) :=
  copyfileobj_loop (S (length fsrc)) E buflen 1 0 fsrc (set_running true self) w.

(** The [except PermissionError] handler of [_copyfile]. *)
Definition on_permission_error (self : Transfer) (w : World)
    : option (Transfer * World * Completion Outcome) :=
  Some (self,
        emit (finished (job_id self)) (emit (progress (job_id self) 100) w),
        Returned ON_ERROR).

Definition lift_outcome (r : option (Transfer * World * Outcome))
    : option (Transfer * World * Completion Outcome) :=
  match r with
  | Some (self, w, o) => Some (self, w, Returned o)
  | None => None
  end.

(** [_copyfile(src, dst)]; the job is always called with its own
    [src] and [dst]. *)
Definition _copyfile (E : Env) (self : Transfer) (w : World)
    : option (Transfer * World * Completion Outcome) :=
  let w := call (sys_open_rb (src self)) w in
  match open_rb (fs w) (src self) with
  | inr PermissionError => on_permission_error self w
  | inr e => Some (self, w, Raised e)
  | inl fsrc =>
      let w := call (sys_open_wb (dst self)) w in
      match open_wb (fs w) (dst self) with
      | inr PermissionError => on_permission_error self w
      | inr e => Some (self, w, Raised e)
      | inl fs' =>
          let w := set_fs fs' w in
          if 0 <? size self then
            lift_outcome (_copyfileobj_readinto E fsrc (Z.min 1048576 (size self)) self w)
          else
            (* copy files with 0 sizes *)
            lift_outcome (_copyfileobj E fsrc 1048576 self w)
      end
  end.

(** [copy_stat]: the metadata is not modelled, the call is recorded. *)
Definition copy_stat (s d : string) (w : World) : World :=
  call (sys_copystat s d) w.

(** [copy(src, dst)] *)
Definition copy (E : Env) (self : Transfer) (w : World)
    : option (Transfer * World * Completion Outcome) :=
  match _copyfile E self w with
  | Some (self, w, Returned ON_SUCCESS) =>
      Some (self, copy_stat (src self) (dst self) w, Returned ON_SUCCESS)
  | Some (self, w, Returned ON_CANCEL) =>
      (* clean up incomplete dst file *)
      Some (self, delete_file (dst self) false w, Returned ON_CANCEL)
  | r => r
  end.

(** [run()] *)
Definition run (E : Env) (self : Transfer) (w : World)
    : option (Transfer * World * Completion unit) :=
  if file_exists (fs w) (src self) (dst self) then
    let w := emit (duplicate (dst self)) w in
    let w := emit (progress (job_id self) 100) w in
    let w := emit (finished (job_id self)) w in
    Some (self, w, Returned ())
  else
    match copy E self w with
    | Some (self, w, Returned _) => Some (self, w, Returned ())
    | Some (self, w, Raised e) => Some (self, w, Raised e)
    | None => None
    end.

End Utils.

(** ** view.py *)

(** A Python [dict] with string keys, in insertion order. *)
Module PyDict.
Section Dict.
Context {V : Type}.

Fixpoint get (k : string) (d : list (string * V)) : option V :=
  match d with
  | [] => None
  | (k', v) :: d' => if bool_decide (k' = k) then Some v else get k d'
  end.

(** [d[k] = v]: replaces the value in place, or appends the key. *)
Fixpoint set (k : string) (v : V) (d : list (string * V)) : list (string * V) :=
  match d with
  | [] => [(k, v)]
  | (k', v') :: d' =>
      if bool_decide (k' = k) then (k, v) :: d' else (k', v') :: set k v d'
  end.

(** [del d[k]]; [None] stands for the [KeyError]. *)
Fixpoint del (k : string) (d : list (string * V)) : option (list (string * V)) :=
  match d with
  | [] => None
  | (k', v) :: d' =>
      if bool_decide (k' = k) then Some d'
      else match del k d' with
           | Some d'' => Some ((k', v) :: d'')
           | None => None
           end
  end.

Definition keys (d : list (string * V)) : list string := map fst d.
Definition values (d : list (string * V)) : list V := map snd d.
End Dict.
End PyDict.

(** [QThreadPool]: at most [maxThreadCount] runnables execute, the
    others wait in [queued], first in, first out. *)
Record QThreadPool := {
  maxThreadCount : nat;
  executing : list nat;
  queued : list nat
}.

Definition pool_start (r : nat) (p : QThreadPool) : QThreadPool :=
  if (length (executing p) <? maxThreadCount p)%nat then
    {| maxThreadCount := maxThreadCount p;
       executing := executing p ++ [r]; queued := queued p |}
  else
    {| maxThreadCount := maxThreadCount p;
       executing := executing p; queued := queued p ++ [r] |}.

Definition pool_clear (p : QThreadPool) : QThreadPool :=
  {| maxThreadCount := maxThreadCount p; executing := executing p; queued := [] |}.

Inductive SignalName := sig_progress | sig_finished | sig_transferred | sig_duplicate.

(** The [WorkerManager] instance together with the heap of [Transfer]
    objects it holds references to.  [connections] lists the signals of
    each worker that are connected to the manager's slots; [shown],
    [all_done_emitted] and [dup_windows] stand for [show()]/[hide()],
    the emissions of [all_done] and the [DuplicatesWindow]s opened. *)
Record WorkerManager := {
  _workers_progress : gmap string Z;
  _active_workers : list (string * nat);
  _transferred : gmap string Z;
  total_workers : Z;
  total_size : Z;
  duplicates : list string;
  files_threadpool : QThreadPool;
  connections : list (nat * SignalName);
  shown : bool;
  all_done_emitted : nat;
  dup_windows : list (list string);
  heap : gmap nat Transfer
}.

(** [WorkerManager.__init__]: one thread, nothing tracked. *)
Definition WorkerManager_init (objects : gmap nat Transfer) : WorkerManager :=
  {| _workers_progress := ∅; _active_workers := []; _transferred := ∅;
     total_workers := 0; total_size := 0; duplicates := [];
     files_threadpool := {| maxThreadCount := 1; executing := []; queued := [] |};
     connections := []; shown := false; all_done_emitted := 0%nat;
     dup_windows := []; heap := objects |}.

(** The objects [self._active_workers.values()] iterates over. *)
Definition active_objects (s : WorkerManager) : list Transfer :=
  omap (λ r, heap s !! r) (PyDict.values (_active_workers s)).

(** [is_valid(worker)] *)
Definition is_valid (s : WorkerManager) (worker : Transfer) : bool :=
  let remaining : gmap string (string * string) :=
    foldl (λ m w, <[src w := (src w, dst w)]> m) ∅ (active_objects s) in
  let worker_src := src worker in
  match remaining !! worker_src with
  | Some (src', dst') =>
      if bool_decide (src' = worker_src) && bool_decide (dst' = dst worker)
      then false else true
  | None => true
  end.

(** [enqueue(worker)]; [r] is the reference to the worker. *)
Definition enqueue (s : WorkerManager) (r : nat) : WorkerManager :=
  match heap s !! r with
  | None => s
  | Some worker =>
      if is_valid s worker then
        {| _workers_progress := _workers_progress s;
           _active_workers := PyDict.set (job_id worker) r (_active_workers s);
           _transferred := _transferred s;
           total_workers := total_workers s + 1;
           total_size := total_size s + size worker;
           duplicates := duplicates s;
           files_threadpool := pool_start r (files_threadpool s);
           connections := connections s ++
             [(r, sig_progress); (r, sig_finished); (r, sig_transferred); (r, sig_duplicate)];
           shown := true;
           all_done_emitted := all_done_emitted s;
           dup_windows := dup_windows s;
           heap := heap s |}
      else s
  end.

Definition receive_progress (s : WorkerManager) (job : string) (percent : Z) : WorkerManager :=
  {| _workers_progress := <[job := percent]> (_workers_progress s);
     _active_workers := _active_workers s; _transferred := _transferred s;
     total_workers := total_workers s; total_size := total_size s;
     duplicates := duplicates s; files_threadpool := files_threadpool s;
     connections := connections s; shown := shown s;
     all_done_emitted := all_done_emitted s; dup_windows := dup_windows s;
     heap := heap s |}.

Definition receive_transferred (s : WorkerManager) (job : string) (moved : Z) : WorkerManager :=
  {| _workers_progress := _workers_progress s;
     _active_workers := _active_workers s;
     _transferred := <[job := moved]> (_transferred s);
     total_workers := total_workers s; total_size := total_size s;
     duplicates := duplicates s; files_threadpool := files_threadpool s;
     connections := connections s; shown := shown s;
     all_done_emitted := all_done_emitted s; dup_windows := dup_windows s;
     heap := heap s |}.

Definition receive_dups (s : WorkerManager) (file : string) : WorkerManager :=
  {| _workers_progress := _workers_progress s;
     _active_workers := _active_workers s; _transferred := _transferred s;
     total_workers := total_workers s; total_size := total_size s;
     duplicates := duplicates s ++ [file]; files_threadpool := files_threadpool s;
     connections := connections s; shown := shown s;
     all_done_emitted := all_done_emitted s; dup_windows := dup_windows s;
     heap := heap s |}.

(** [sum(v for v in d.values())] *)
Definition sum_values (d : gmap string Z) : Z :=
  map_fold (λ _ v acc, v + acc) 0 d.

(** [calculate_progress()] *)
Definition calculate_progress (s : WorkerManager) : Q :=
  if bool_decide (_workers_progress s = ∅) || (total_workers s =? 0) then 0%Q
  else py_truediv (sum_values (_workers_progress s)) (total_workers s).

(** [calculate_transferred()] *)
Definition calculate_transferred (s : WorkerManager) : Z :=
  if bool_decide (_transferred s = ∅) then 0 else sum_values (_transferred s).

(** What [refresh_progress()] hands to the widgets on a timer tick: the
    argument of [progress_bar.setValue], the remaining bytes (before
    [convert_bytes] formats them) and the remaining files. *)
Record Display := {
  bar_value : Z;
  remaining_bytes : Z;
  remaining_files : Z
}.

Definition refresh_progress (s : WorkerManager) : Display :=
  {| bar_value := py_int (calculate_progress s);
     remaining_bytes := total_size s - calculate_transferred s;
     remaining_files := Z.max 1 (Z.of_nat (length (_active_workers s))) |}.

(** [all(v == 100 for v in d.values())] *)
Definition all_100 (d : gmap string Z) : bool :=
  bool_decide (map_Forall (λ _ v, v = 100) d).

(** The body of the second [if] of [done]: the maps are cleared, the
    counts zeroed, [all_done] is emitted, [handle_dups()] opens a window
    on the duplicates collected (when there are any) and clears them, and
    the transfer window is hidden. *)
Definition batch_done (s : WorkerManager) : WorkerManager :=
  {| _workers_progress := ∅;
     _active_workers := _active_workers s;
     _transferred := ∅;
     total_workers := 0; total_size := 0;
     duplicates := [];
     files_threadpool := files_threadpool s;
     connections := connections s;
     shown := false;
     all_done_emitted := S (all_done_emitted s);
     dup_windows := match duplicates s with
                    | [] => dup_windows s
                    | ds => dup_windows s ++ [ds]
                    end;
     heap := heap s |}.

Definition set_active (a : list (string * nat)) (s : WorkerManager) : WorkerManager :=
  {| _workers_progress := _workers_progress s;
     _active_workers := a; _transferred := _transferred s;
     total_workers := total_workers s; total_size := total_size s;
     duplicates := duplicates s; files_threadpool := files_threadpool s;
     connections := connections s; shown := shown s;
     all_done_emitted := all_done_emitted s; dup_windows := dup_windows s;
     heap := heap s |}.

(** [done(job_id)] *)
Definition done (s : WorkerManager) (job : string) : Completion WorkerManager :=
  let deleted :=
    match _active_workers s with
    | [] => Some []                              (* the dict is falsy *)
    | a => PyDict.del job a
    end in
  match deleted with
  | None => Raised (KeyError job)
  | Some a =>
      let s := set_active a s in
      if all_100 (_workers_progress s) && bool_decide (_active_workers s = [])
      then Returned (batch_done s)
      else Returned s
  end.

(** [cancel()] *)
Definition cancel (s : WorkerManager) : WorkerManager :=
  {| _workers_progress := _workers_progress s;
     _active_workers := [];
     _transferred := _transferred s;
     total_workers := total_workers s; total_size := total_size s;
     duplicates := duplicates s;
     files_threadpool := pool_clear (files_threadpool s);
     connections := connections s; shown := shown s;
     all_done_emitted := all_done_emitted s; dup_windows := dup_windows s;
     heap := foldl (λ h r, alter (set_running false) r h) (heap s)
                   (PyDict.values (_active_workers s)) |}.

(** What reaches the manager on the GUI thread: a submission, the
    delivery of a signal of a worker to its slot, or the Cancel button. *)
Inductive Event :=
| ev_enqueue (r : nat)
| ev_progress (job : string) (percent : Z)
| ev_transferred (job : string) (moved : Z)
| ev_duplicate (file : string)
| ev_finished (job : string)
| ev_cancel.

Definition handle (s : WorkerManager) (e : Event) : Completion WorkerManager :=
  match e with
  | ev_enqueue r => Returned (enqueue s r)
  | ev_progress job p => Returned (receive_progress s job p)
  | ev_transferred job n => Returned (receive_transferred s job n)
  | ev_duplicate f => Returned (receive_dups s f)
  | ev_finished job => done s job
  | ev_cancel => Returned (cancel s)
  end.

(** The events handled one after the other, up to the first slot that
    raises. *)
Fixpoint handle_all (s : WorkerManager) (es : list Event) : Completion WorkerManager :=
  match es with
  | [] => Returned s
  | e :: es' =>
      match handle s e with
      | Returned s' => handle_all s' es'
      | Raised x => Raised x
      end
  end.

(** ** Notions the properties are stated with *)

(** The percentages carried by the [progress] signals of a log, in
    emission order. *)
Definition progress_values (sigs : list Signal) : list Z :=
  omap (λ s, match s with progress _ p => Some p | _ => None end) sigs.

(** The sizes of the reads of a log of system calls. *)
Definition reads (cs : list SysCall) : list Z :=
  omap (λ c, match c with sys_read n => Some n | _ => None end) cs.

(** The paths a log of system calls deletes, by [os.unlink] or by
    [send2trash]. *)
Definition deletions (cs : list SysCall) : list string :=
  omap (λ c, match c with
             | sys_unlink p => Some p
             | sys_send2trash p => Some p
             | _ => None
             end) cs.



(** The system calls of [k] iterations of a copy loop that reads
    [buflen] bytes at a time from a stream that still holds [fsrc]. *)
Fixpoint chunk_calls (d : string) (buflen : nat) (fsrc : list byte) (k : nat)
    : list SysCall :=
  match k with
  | O => []
  | S k' =>
      let n := Z.of_nat (length (take buflen fsrc)) in
      sys_read n :: sys_write d n :: chunk_calls d buflen (drop buflen fsrc) k'
  end.

(** The signals of these [k] iterations, [moved] bytes having been moved
    before them. *)
Fixpoint chunk_signals (self : Transfer) (buflen : nat) (moved : Z)
    (fsrc : list byte) (k : nat) : list Signal :=
  match k with
  | O => []
  | S k' =>
      let moved := moved + Z.of_nat (length (take buflen fsrc)) in
      transferred (job_id self) moved
        :: progress (job_id self) (percentage moved self)
        :: chunk_signals self buflen moved (drop buflen fsrc) k'
  end.

(** The combined percentage in the words of the specification: the
    arithmetic mean of the tracked percentages, 0 when none is tracked. *)
Definition mean_of_tracked (d : gmap string Z) : Q :=
  if bool_decide (d = ∅) then 0%Q
  else py_truediv (sum_values d) (Z.of_nat (base.size d)).

(** The events of a batch that nobody cancels, as they can reach the
    manager in state [s]: a submission of a worker with a fresh
    identifier; a percentage between 0 and 100 of an active job, not
    below the one tracked for it; the [finished] of an active job that has
    reported 100; [transferred] and [duplicate] at any time. *)
Definition batch_ok (s : WorkerManager) (e : Event) : bool :=
  match e with
  | ev_enqueue r =>
      match heap s !! r with
      | Some worker =>
          bool_decide (job_id worker ∉ PyDict.keys (_active_workers s))
          && bool_decide (_workers_progress s !! job_id worker = None)
      | None => false
      end
  | ev_progress job p =>
      bool_decide (job ∈ PyDict.keys (_active_workers s))
      && (0 <=? p) && (p <=? 100)
      && match _workers_progress s !! job with
         | Some q => q <=? p
         | None => true
         end
  | ev_finished job =>
      bool_decide (job ∈ PyDict.keys (_active_workers s))
      && bool_decide (_workers_progress s !! job = Some 100)
  | ev_transferred _ _ => true
  | ev_duplicate _ => true
  | ev_cancel => false
  end.

(** [batch_run s es s']: the events [es] of such a batch take the manager
    from [s] to [s']. *)
Inductive batch_run : WorkerManager -> list Event -> WorkerManager -> Prop :=
| batch_run_nil s : batch_run s [] s
| batch_run_cons s e s1 es s' :
    batch_ok s e = true ->
    handle s e = Returned s1 ->
    batch_run s1 es s' ->
    batch_run s (e :: es) s'.

(** What a batch maintains. *)
Record batch_inv (s : WorkerManager) : Prop := {
  inv_nodup : NoDup (PyDict.keys (_active_workers s));
  inv_range : map_Forall (λ _ v, v <= 100) (_workers_progress s);
  inv_count :
    total_workers s =
    Z.of_nat (base.size (dom (_workers_progress s)
                    ∪ list_to_set (PyDict.keys (_active_workers s)) : gset string))
}.

(** ** Sample data *)

Module Sample.
Import Posix.

(** Three workers on the same source; the first and the third have the
    same destination. *)
Definition workerA : Transfer :=
  {| src := "/s/a"; dst := "/x/a"; size := 3; running := false; job_id := "A" |}.
Definition workerB : Transfer :=
  {| src := "/s/a"; dst := "/y/a"; size := 5; running := false; job_id := "B" |}.
Definition workerC : Transfer :=
  {| src := "/s/a"; dst := "/x/a"; size := 3; running := false; job_id := "C" |}.

Definition objects : gmap nat Transfer :=
  <[0%nat := workerA]> (<[1%nat := workerB]> (<[2%nat := workerC]> ∅)).

Definition idle : WorkerManager := WorkerManager_init objects.

(** A quiet environment, and one in which Cancel is pressed during the
    first iteration. *)
Definition quiet : Env :=
  {| cancel_req := λ _, false; read_fails := λ _, false; write_fails := λ _, false |}.
Definition cancel_first : Env :=
  {| cancel_req := λ i, bool_decide (i = 1%nat);
     read_fails := λ _, false; write_fails := λ _, false |}.

(** Cancel is pressed during the second iteration, and not before. *)
Definition cancel_second : Env :=
  {| cancel_req := λ i, bool_decide (i = 2%nat);
     read_fails := λ _, false; write_fails := λ _, false |}.

(** [/s/a] holds three bytes, [/s/z] is empty, [/s/d] holds one byte,
    [/x/d] is a directory, [/s/locked] cannot be opened for reading. *)
Definition disk : FileSystem :=
  {| files := <["/s/a" := [Byte.x01; Byte.x02; Byte.x03]]>
                (<["/s/z" := []]> (<["/s/d" := [Byte.x07]]>
                (<["/s/locked" := [Byte.x09]]> (<["/x/old" := []]> ∅))));
     dirs := {["/s"; "/x"; "/x/d"]};
     read_denied := {["/s/locked"]};
     write_denied := ∅ |}.

Definition world : World := {| fs := disk; emitted := []; calls := [] |}.

Definition workerZ : Transfer :=
  {| src := "/s/z"; dst := "/x/z"; size := 0; running := false; job_id := "Z" |}.
Definition workerD : Transfer := Transfer_init disk "/s/d" "/x" 1 "D".
Definition workerO : Transfer :=
  {| src := "/s/a"; dst := "/x/old"; size := 3; running := false; job_id := "O" |}.

End Sample.

(** ** The protocol between a job and the manager *)

(** The call of a slot of the manager that a signal of a connected
    worker causes, [sig] giving the signal with the values the slot
    receives ([enqueue] connects [progress] to [receive_progress],
    [finished] to [done], [transferred] to [receive_transferred] and
    [duplicate] to [receive_dups]); signals of one worker arrive in
    emission order.  The percentage a slot receives for a float handed
    to [progress.emit] need not be the one in the [emitted] log: what
    follows is stated for the signals as received. *)
Definition deliver (sig : Signal) : Event :=
  match sig with
  | finished job => ev_finished job
  | progress job p => ev_progress job p
  | transferred job n => ev_transferred job n
  | duplicate file => ev_duplicate file
  end.

(** A signal a job of identifier [job] emits before it finishes. *)
Definition is_report (job : string) (sig : Signal) : bool :=
  match sig with
  | progress j _ => bool_decide (j = job)
  | transferred j _ => bool_decide (j = job)
  | duplicate _ => true
  | finished _ => false
  end.

(** The files carried by the [duplicate] signals of a log. *)
Definition duplicate_files (sigs : list Signal) : list string :=
  omap (λ s, match s with duplicate f => Some f | _ => None end) sigs.

(** The byte counts carried by the [transferred] signals of a log. *)
Definition transferred_values (sigs : list Signal) : list Z :=
  omap (λ s, match s with transferred _ n => Some n | _ => None end) sigs.

(** The number of reads of [buflen] bytes that return data on a stream
    holding [fsrc]. *)
Definition chunk_count (buflen : nat) (fsrc : list byte) : nat :=
  ((length fsrc + buflen - 1) / buflen)%nat.

(** ** controller.py *)

Section Controller.
Context `{Platform}.

(** What [os.stat] reports as the size of a directory. *)
Variable dir_size : string -> Z.

(** [os.path.getsize(p)] *)
Definition os_path_getsize (fs : FileSystem) (p : string) : Z + PyExn :=
  if os_path_isdir fs p then inl (dir_size p)
  else match files fs !! p with
       | Some data => inl (Z.of_nat (length data))
       | None => inr FileNotFoundError
       end.

(** [os.path.isfile(p)] *)
Definition os_path_isfile (fs : FileSystem) (p : string) : bool :=
  negb (os_path_isdir fs p) && bool_decide (is_Some (files fs !! p)).

(** The new [Transfer] object is placed in the heap at address [r]. *)
Definition allocate (r : nat) (worker : Transfer) (s : WorkerManager) : WorkerManager :=
  {| _workers_progress := _workers_progress s;
     _active_workers := _active_workers s; _transferred := _transferred s;
     total_workers := total_workers s; total_size := total_size s;
     duplicates := duplicates s; files_threadpool := files_threadpool s;
     connections := connections s; shown := shown s;
     all_done_emitted := all_done_emitted s; dup_windows := dup_windows s;
     heap := <[r := worker]> (heap s) |}.

(** [Main.createWorker(src, dst)]: the size is read from the file
    system, the worker is built and handed to the manager of the main
    window; [uuid] and [r] are the identifier and the address the new
    object gets. *)
Definition createWorker (fs : FileSystem) (uuid : string) (r : nat)
    (s : WorkerManager) (src dst : string) : Completion WorkerManager :=
  match os_path_getsize fs src with
  | inr e => Raised e
  | inl file_size =>
      let worker := Transfer_init fs src dst file_size uuid in
      Returned (enqueue (allocate r worker s) r)
  end.

End Controller.

(** ** More sample data *)

Module Sample2.

(** The three bytes of [/s/a] announced as none, as three, and as
    five. *)
Definition worker_zero : Transfer :=
  {| src := "/s/a"; dst := "/x/q"; size := 0; running := false; job_id := "Q" |}.
Definition worker_exact : Transfer :=
  {| src := "/s/a"; dst := "/x/e"; size := 3; running := false; job_id := "E" |}.
Definition worker_stale : Transfer :=
  {| src := "/s/a"; dst := "/x/t"; size := 5; running := false; job_id := "T" |}.


(** Directories are reported with size 4096. *)
Definition dir_size (p : string) : Z := 4096.

End Sample2.

(** * Properties of the coordinator *)

(** ** Dictionaries *)

Section DictFacts.
Context {V : Type}.
Implicit Types d : list (string * V).

Lemma dict_set_fresh k v d :
  k ∉ PyDict.keys d -> PyDict.set k v d = d ++ [(k, v)].
Proof.
  induction d as [|[k' v'] d IH]; simpl; [done|].
  intros Hk. apply not_elem_of_cons in Hk as [Hne Hk].
  rewrite bool_decide_false by congruence. by rewrite IH.
Qed.

Lemma dict_keys_app d1 d2 :
  PyDict.keys (d1 ++ d2) = PyDict.keys d1 ++ PyDict.keys d2.
Proof. unfold PyDict.keys. apply map_app. Qed.

Lemma dict_del_absent k d : k ∉ PyDict.keys d -> PyDict.del k d = None.
Proof.
  induction d as [|[k' v'] d IH]; simpl; [done|].
  intros Hk. apply not_elem_of_cons in Hk as [Hne Hk].
  rewrite bool_decide_false by congruence. by rewrite IH.
Qed.

Lemma dict_del_present k d :
  k ∈ PyDict.keys d -> NoDup (PyDict.keys d) ->
  ∃ d', PyDict.del k d = Some d'
        ∧ NoDup (PyDict.keys d')
        ∧ (∀ j, j ∈ PyDict.keys d' ↔ j ∈ PyDict.keys d ∧ j ≠ k).
Proof.
  induction d as [|[k' v'] d IH]; simpl; intros Hin Hnd.
  { by apply elem_of_nil in Hin. }
  apply NoDup_cons in Hnd as [Hk' Hnd].
  case_bool_decide as Heq.
  - subst k'. exists d. split; [done|]. split; [done|].
    intros j. rewrite elem_of_cons. split.
    + intros Hj. split; [by right|]. intros ->. done.
    + intros [[->|Hj] Hne]; done.
  - apply elem_of_cons in Hin as [->|Hin]; [done|].
    destruct (IH Hin Hnd) as (d' & -> & Hnd' & Hkeys).
    exists ((k', v') :: d'). split; [done|]. simpl. split.
    + apply NoDup_cons. split; [|done]. rewrite Hkeys. tauto.
    + intros j. rewrite !elem_of_cons, Hkeys. split.
      * intros [->|[Hj Hne]]; split; auto.
      * intros [[->|Hj] Hne]; auto.
Qed.
End DictFacts.

(** ** Sums over a dictionary *)

Lemma sum_values_empty : sum_values ∅ = 0.
Proof. apply map_fold_empty. Qed.

Lemma sum_values_insert (d : gmap string Z) k v :
  d !! k = None -> sum_values (<[k := v]> d) = v + sum_values d.
Proof.
  intros Hk. unfold sum_values.
  apply (map_fold_insert_L (λ _ v acc, v + acc)); [|done].
  intros. lia.
Qed.



Lemma sum_values_pair (a b : string) (p1 p2 : Z) :
  a ≠ b -> sum_values (<[a := p1]> (<[b := p2]> ∅)) = p1 + p2.
Proof.
  intros Hne.
  rewrite sum_values_insert by (by rewrite lookup_insert_ne, lookup_empty).
  rewrite sum_values_insert by apply lookup_empty.
  rewrite sum_values_empty. lia.
Qed.

(** ** Rationals *)



(** ** The finished-event handler *)

Lemma done_absent_raises (s : WorkerManager) (job : string) :
  _active_workers s ≠ [] ->
  job ∉ PyDict.keys (_active_workers s) ->
  done s job = Raised (KeyError job).
Proof.
  intros Hne Habs. unfold done.
  destruct (_active_workers s) as [|kv a] eqn:Ha; [done|].
  by rewrite (dict_del_absent _ _ Habs).
Qed.

Lemma done_empty_returns (s : WorkerManager) (job : string) :
  _active_workers s = [] -> ∃ s', done s job = Returned s'.
Proof.
  intros Ha. unfold done. rewrite Ha.
  destruct (all_100 _ && _); eauto.
Qed.

(** C1 (the code departs from the claim).  The claim: [done] with a job
    id that is not in the active-job map completes without raising, also
    when the map is non-empty because other jobs are registered.  The
    code: worker A is submitted and starts, Cancel empties the map,
    worker B is submitted, and A's [finished] event arrives; the map
    holds B only, the guard [if self._active_workers] lets the [del]
    run, and [done] raises [KeyError]. *)
Theorem C1_done_absent_job_raises :
  ∃ s, handle_all Sample.idle [ev_enqueue 0%nat; ev_cancel; ev_enqueue 1%nat] = Returned s
       ∧ PyDict.keys (_active_workers s) = ["B"]
       ∧ done s "A" = Raised (KeyError "A")
       ∧ handle_all Sample.idle
           [ev_enqueue 0%nat; ev_cancel; ev_enqueue 1%nat; ev_finished "A"]
         = Raised (KeyError "A").
Proof.
  eexists. split; [vm_compute; reflexivity|].
  repeat split; vm_compute; reflexivity.
Qed.

(** ** The combined percentage *)

Lemma calculate_progress_untracked (s : WorkerManager) :
  _workers_progress s = ∅ -> calculate_progress s = 0%Q.
Proof. intros Hd. unfold calculate_progress. by rewrite bool_decide_true. Qed.

Lemma calculate_progress_tracked (s : WorkerManager) :
  _workers_progress s ≠ ∅ -> total_workers s ≠ 0 ->
  calculate_progress s = py_truediv (sum_values (_workers_progress s)) (total_workers s).
Proof.
  intros Hd Ht. unfold calculate_progress.
  rewrite bool_decide_false by done.
  by apply Z.eqb_neq in Ht as ->.
Qed.

(** C2, counterexample.  Two jobs are submitted, the first has reported
    50 and the second nothing yet: the only tracked percentage is 50, so
    the mean of the tracked percentages is 50, and [calculate_progress]
    answers 25. *)
Lemma C2_mean_counterexample :
  ∃ s, handle_all Sample.idle
         [ev_enqueue 0%nat; ev_enqueue 1%nat; ev_progress "A" 50] = Returned s
       ∧ map_to_list (_workers_progress s) = [("A", 50)]
       ∧ (calculate_progress s == 25)%Q
       ∧ (mean_of_tracked (_workers_progress s) == 50)%Q
       ∧ ¬ (calculate_progress s == mean_of_tracked (_workers_progress s))%Q.
Proof.
  eexists. split; [vm_compute; reflexivity|].
  repeat split; try (vm_compute; reflexivity).
  vm_compute. intros Heq. discriminate Heq.
Qed.

(** C2 (amended).  At every timer tick the combined percentage is the sum
    of the tracked per-job percentages divided by the number of submitted
    jobs [total_workers] (a job that has not reported yet counts as 0),
    and 0 when no percentage is tracked or the job count is 0; it is the
    arithmetic mean of the tracked percentages when every submitted job
    is tracked; for two submitted jobs that have both reported it is the
    unweighted mean of their two percentages, whatever the sizes. *)
Theorem C2_combined_percentage (s : WorkerManager) :
  let d := _workers_progress s in
  (d = ∅ ∨ total_workers s = 0 -> (calculate_progress s == 0)%Q)
  ∧ (d ≠ ∅ -> total_workers s ≠ 0 ->
     (calculate_progress s == py_truediv (sum_values d) (total_workers s))%Q)
  ∧ (total_workers s = Z.of_nat (base.size d) ->
     (calculate_progress s == mean_of_tracked d)%Q)
  ∧ (∀ a b p1 p2, a ≠ b -> d = <[a := p1]> (<[b := p2]> ∅) -> total_workers s = 2 ->
     bar_value (refresh_progress s) = py_int (py_truediv (p1 + p2) 2)
     ∧ (calculate_progress s == py_truediv (p1 + p2) 2)%Q).
Proof.
  intros d. subst d. repeat split.
  - intros [Hd|Ht]; [by rewrite calculate_progress_untracked|].
    unfold calculate_progress. rewrite Ht. simpl. by rewrite orb_true_r.
  - intros Hd Ht. by rewrite calculate_progress_tracked.
  - intros Ht. unfold mean_of_tracked.
    destruct (decide (_workers_progress s = ∅)) as [Hd|Hd].
    + rewrite calculate_progress_untracked, bool_decide_true by done. reflexivity.
    + rewrite bool_decide_false by done.
      rewrite calculate_progress_tracked, Ht; [reflexivity|done|].
      rewrite Ht. apply map_size_non_empty_iff in Hd. lia.
  - unfold refresh_progress; simpl.
    rewrite calculate_progress_tracked; [|rewrite H0; apply insert_non_empty|lia].
    by rewrite H0, H1, sum_values_pair.
  - rewrite calculate_progress_tracked; [|rewrite H0; apply insert_non_empty|lia].
    rewrite H0, H1, sum_values_pair by done. reflexivity.
Qed.

Lemma C2_combined_percentage_witness :
  ∃ s, handle_all Sample.idle
         [ev_enqueue 0%nat; ev_enqueue 1%nat; ev_progress "A" 100;
          ev_finished "A"; ev_progress "B" 40] = Returned s
       ∧ (calculate_progress s == py_truediv (100 + 40) 2)%Q.
Proof.
  eexists. split; [vm_compute; reflexivity|].
  match goal with |- (calculate_progress ?s == _)%Q =>
    destruct (C2_combined_percentage s) as (_ & _ & _ & Hpair) end.
  apply (Hpair "A" "B" 100 40).
  - discriminate.
  - apply map_eq. intros k. vm_compute. reflexivity.
  - vm_compute. reflexivity.
Defined.

(** ** Submissions *)

Lemma enqueue_rejected (s : WorkerManager) (r : nat) (worker : Transfer) :
  heap s !! r = Some worker -> is_valid s worker = false -> enqueue s r = s.
Proof. intros Hr Hv. unfold enqueue. by rewrite Hr, Hv. Qed.

(** What [remaining] holds for a source: the pair of the active worker
    with that source that was registered last. *)
Lemma remaining_snoc (ws : list Transfer) (w : Transfer) :
  foldl (λ m w, <[src w := (src w, dst w)]> m) (∅ : gmap string (string * string))
        (ws ++ [w]) !! src w
  = Some (src w, dst w).
Proof. rewrite foldl_app. simpl. apply lookup_insert_eq. Qed.

(** A submission whose pair is that of the worker registered last is
    rejected, and the manager is left as it was. *)
Lemma enqueue_same_as_last (s : WorkerManager) (r : nat) (worker last : Transfer)
    (ws : list Transfer) :
  heap s !! r = Some worker ->
  active_objects s = ws ++ [last] ->
  src last = src worker -> dst last = dst worker ->
  enqueue s r = s.
Proof.
  intros Hr Hact Hsrc Hdst. apply (enqueue_rejected s r worker Hr).
  unfold is_valid. rewrite Hact, <- Hsrc, remaining_snoc.
  by rewrite Hdst, !bool_decide_true.
Qed.

(** C4 (the code departs from the claim).  The claim: a submission whose
    (source, destination) pair is that of any active job is a no-op, also
    when several active jobs share the source.  The code: A copies
    [/s/a] to [/x/a], B copies [/s/a] to [/y/a], both are active;
    [remaining] is keyed by the source alone, so B's pair replaces A's,
    and C, whose pair is A's, is found valid and registered. *)
Theorem C4_duplicate_pair_accepted :
  ∃ s, handle_all Sample.idle [ev_enqueue 0%nat; ev_enqueue 1%nat] = Returned s
       ∧ active_objects s = [Sample.workerA; Sample.workerB]
       ∧ (src Sample.workerC, dst Sample.workerC) = (src Sample.workerA, dst Sample.workerA)
       ∧ is_valid s Sample.workerC = true
       ∧ PyDict.keys (_active_workers (enqueue s 2%nat)) = ["A"; "B"; "C"]
       ∧ total_workers (enqueue s 2%nat) = total_workers s + 1
       ∧ total_size (enqueue s 2%nat) = total_size s + size Sample.workerC
       ∧ queued (files_threadpool (enqueue s 2%nat))
         = queued (files_threadpool s) ++ [2%nat]
       ∧ connections (enqueue s 2%nat)
         = connections s ++ [(2%nat, sig_progress); (2%nat, sig_finished);
                             (2%nat, sig_transferred); (2%nat, sig_duplicate)].
Proof.
  eexists. split; [vm_compute; reflexivity|].
  repeat split; vm_compute; reflexivity.
Qed.

(** ** Cancel *)

Lemma stop_all_lookup (rs : list nat) (h : gmap nat Transfer) (r : nat) :
  foldl (λ h r, alter (set_running false) r h) h rs !! r
  = if decide (r ∈ rs) then set_running false <$> h !! r else h !! r.
Proof.
  revert h. induction rs as [|a rs IH]; intros h; simpl.
  - done.
  - rewrite IH, lookup_alter.
    destruct (decide (r ∈ a :: rs)) as [Hc|Hc], (decide (r ∈ rs)) as [Hin|Hin],
      (decide (a = r)) as [Ha|Ha]; try subst a; try done.
    + by destruct (h !! r).
    + apply elem_of_cons in Hc as [->|Hc]; done.
    + exfalso. apply Hc, elem_of_cons. by right.
    + exfalso. apply Hc, elem_of_cons. by right.
    + exfalso. apply Hc, elem_of_cons. by left.
Qed.

(** C10.  Cancel clears the queue of the thread pool, sets the [running]
    flag of every active job to false and empties the active-job map; it
    leaves the percentages, the bytes transferred, the job count and the
    byte volume as they were, so the combined percentage and the bar are
    what they were before; the next [finished] event clears this state
    exactly when all tracked percentages are 100. *)
Theorem C10_cancel_frame (s : WorkerManager) :
  queued (files_threadpool (cancel s)) = []
  ∧ executing (files_threadpool (cancel s)) = executing (files_threadpool s)
  ∧ (∀ r, heap (cancel s) !! r
          = if decide (r ∈ PyDict.values (_active_workers s))
            then set_running false <$> heap s !! r
            else heap s !! r)
  ∧ Forall (λ w, running w = false) (active_objects (set_active (_active_workers s) (cancel s)))
  ∧ _active_workers (cancel s) = []
  ∧ _workers_progress (cancel s) = _workers_progress s
  ∧ _transferred (cancel s) = _transferred s
  ∧ total_workers (cancel s) = total_workers s
  ∧ total_size (cancel s) = total_size s
  ∧ calculate_progress (cancel s) = calculate_progress s
  ∧ bar_value (refresh_progress (cancel s)) = bar_value (refresh_progress s)
  ∧ remaining_bytes (refresh_progress (cancel s)) = remaining_bytes (refresh_progress s)
  ∧ (∀ job, done (cancel s) job
            = Returned (if all_100 (_workers_progress s)
                        then batch_done (cancel s) else cancel s)).
Proof.
  repeat split; try reflexivity.
  - intros r. apply stop_all_lookup.
  - unfold active_objects. apply Forall_forall. intros w Hw.
    apply list_elem_of_omap in Hw as (r & Hr & Hlook). simpl in *.
    rewrite stop_all_lookup, decide_True in Hlook by done.
    destruct (heap s !! r); simplify_eq/=. done.
  - intros job. unfold done. simpl.
    by destruct (all_100 (_workers_progress s)).
Qed.

(** ** Batches *)

Lemma dict_del_is_Some {V} (k : string) (d : list (string * V)) :
  k ∈ PyDict.keys d -> is_Some (PyDict.del k d).
Proof.
  induction d as [|[k' v'] d IH]; simpl; intros Hin.
  { by apply elem_of_nil in Hin. }
  case_bool_decide; [by eexists|].
  apply elem_of_cons in Hin as [->|Hin]; [done|].
  destruct (IH Hin) as [d' ->]. by eexists.
Qed.

(** No event of a batch makes a slot raise. *)
Lemma batch_ok_handled (s : WorkerManager) (e : Event) :
  batch_ok s e = true -> ∃ s', handle s e = Returned s'.
Proof.
  destruct e; simpl; intros Hok; eauto.
  apply andb_prop in Hok as [Hin _]. apply bool_decide_eq_true in Hin.
  unfold done. destruct (_active_workers s) as [|kv a] eqn:Ha.
  { by apply elem_of_nil in Hin. }
  destruct (dict_del_is_Some _ _ Hin) as [d' ->].
  destruct (all_100 _ && _); eauto.
Qed.

Lemma batch_run_handle_all (s s' : WorkerManager) (es : list Event) :
  batch_run s es s' -> handle_all s es = Returned s'.
Proof.
  induction 1 as [s|s e s1 es s' Hok Hstep Hrun IH]; simpl; [done|].
  by rewrite Hstep.
Qed.

Lemma batch_inv_init (objects : gmap nat Transfer) :
  batch_inv (WorkerManager_init objects).
Proof.
  split; simpl.
  - apply NoDup_nil_2.
  - apply map_Forall_empty.
  - by rewrite dom_empty_L, union_empty_r_L, size_empty.
Qed.

Lemma batch_inv_enqueue (s : WorkerManager) (r : nat) :
  batch_inv s -> batch_ok s (ev_enqueue r) = true -> batch_inv (enqueue s r).
Proof.
  intros [Hnd Hrange Hcount]. unfold batch_ok, enqueue.
  destruct (heap s !! r) as [worker|]; [|done].
  intros [Hfresh Hnew%bool_decide_eq_true]%andb_prop.
  apply bool_decide_eq_true in Hfresh.
  destruct (is_valid s worker); [|done].
  split; simpl; rewrite ?dict_set_fresh, ?dict_keys_app by done; simpl.
  - apply NoDup_app. split; [done|]. split; [|apply NoDup_singleton].
    intros x Hx ->%list_elem_of_singleton. done.
  - done.
  - rewrite list_to_set_snoc_L, assoc_L by apply _.
    rewrite size_union, size_singleton, Hcount; [lia|].
    apply disjoint_singleton_r.
    rewrite elem_of_union, elem_of_list_to_set, elem_of_dom, Hnew.
    intros [[? [=]]|?]; done.
Qed.

Lemma batch_inv_progress (s : WorkerManager) (job : string) (p : Z) :
  batch_inv s -> batch_ok s (ev_progress job p) = true ->
  batch_inv (receive_progress s job p).
Proof.
  intros [Hnd Hrange Hcount]. simpl.
  intros [[[Hin%bool_decide_eq_true _]%andb_prop Hp%Z.leb_le]%andb_prop _]%andb_prop.
  split; simpl.
  - done.
  - by apply map_Forall_insert_2.
  - rewrite Hcount. do 2 f_equal. rewrite dom_insert_L.
    apply set_eq. intros x.
    rewrite !elem_of_union, elem_of_singleton, elem_of_list_to_set.
    split; [tauto|]. intros [[->|?]|?]; auto.
Qed.

Lemma batch_inv_done (s s' : WorkerManager) (job : string) :
  batch_inv s -> batch_ok s (ev_finished job) = true ->
  done s job = Returned s' -> batch_inv s'.
Proof.
  intros [Hnd Hrange Hcount]. simpl.
  intros [Hin%bool_decide_eq_true Hrep%bool_decide_eq_true]%andb_prop.
  unfold done. destruct (_active_workers s) as [|kv a] eqn:Ha.
  { by apply elem_of_nil in Hin. }
  rewrite <- Ha in *. clear Ha kv a.
  destruct (dict_del_present _ _ Hin Hnd) as (d' & -> & Hnd' & Hkeys).
  destruct (all_100 _ && bool_decide _) eqn:Hall; intros [= <-].
  - apply andb_prop in Hall as [_ Hempty%bool_decide_eq_true]. simpl in Hempty.
    split; simpl; rewrite ?Hempty; simpl.
    + apply NoDup_nil_2.
    + apply map_Forall_empty.
    + by rewrite dom_empty_L, union_empty_r_L, size_empty.
  - split; simpl; [done|done|].
    rewrite Hcount. do 2 f_equal. apply set_eq. intros x.
    rewrite !elem_of_union, !elem_of_list_to_set, Hkeys, elem_of_dom.
    split; [|tauto]. intros [?|?]; [by left|].
    destruct (decide (x = job)) as [->|?]; [left; by eexists|by right].
Qed.

Lemma batch_inv_step (s s' : WorkerManager) (e : Event) :
  batch_inv s -> batch_ok s e = true -> handle s e = Returned s' -> batch_inv s'.
Proof.
  intros Hinv Hok. destruct e; simpl.
  - intros [= <-]. by apply batch_inv_enqueue.
  - intros [= <-]. by apply batch_inv_progress.
  - intros [= <-]. by destruct Hinv.
  - intros [= <-]. by destruct Hinv.
  - by apply batch_inv_done.
  - done.
Qed.

Lemma batch_inv_run (s s' : WorkerManager) (es : list Event) :
  batch_run s es s' -> batch_inv s -> batch_inv s'.
Proof.
  induction 1 as [s|s e s1 es s' Hok Hstep Hrun IH]; [done|].
  intros Hinv. eauto using batch_inv_step.
Qed.



(** Builds the [batch_run] of a list of concrete events by evaluating the
    guard and the handler of each. *)
Ltac replay_batch :=
  repeat (eapply batch_run_cons; [vm_compute; reflexivity|vm_compute; reflexivity|]);
  apply batch_run_nil.




(** * Properties of a transfer job *)

Section UtilsFacts.
Context `{Platform}.

(** ** Logs *)

Lemma progress_values_app (l1 l2 : list Signal) :
  progress_values (l1 ++ l2) = progress_values l1 ++ progress_values l2.
Proof. apply omap_app. Qed.

Lemma reads_app (l1 l2 : list SysCall) : reads (l1 ++ l2) = reads l1 ++ reads l2.
Proof. apply omap_app. Qed.

Lemma deletions_app (l1 l2 : list SysCall) :
  deletions (l1 ++ l2) = deletions l1 ++ deletions l2.
Proof. apply omap_app. Qed.

(** ** Jobs that end before the copy loop *)

(** C7 (amended).  For every job whose resolved destination path exists
    and is not a directory when execution starts, the job skips the copy
    and emits, in this order, a duplicate-file event carrying the
    resolved destination path, a progress event of 100 and a finished
    event; it makes no system call and leaves the file system as it
    was. *)
Theorem C7_existing_file_is_duplicate (E : Env) (self : Transfer) (w : World) :
  os_path_exists (fs w) (dst self) = true ->
  os_path_isdir (fs w) (dst self) = false ->
  ∃ w', run E self w = Some (self, w', Returned ())
        ∧ emitted w' = emitted w ++ [duplicate (dst self);
                                      progress (job_id self) 100;
                                      finished (job_id self)]
        ∧ fs w' = fs w
        ∧ calls w' = calls w.
Proof.
  intros Hex Hdir. eexists. unfold run, file_exists.
  rewrite Hdir, Hex. split; [reflexivity|]. simpl.
  by rewrite <- !app_assoc.
Qed.


(** C3 (amended).  For every zero-size source file (declared size 0, the
    source opens and yields no bytes, the destination opens for
    writing), the copy completes with outcome Success; it goes through
    the buffered copy loop, whose single read returns no data, and writes
    nothing; it emits the finished event and no progress event. *)
Theorem C3_zero_size_copy (E : Env) (self : Transfer) (w : World) (fs' : FileSystem) :
  size self = 0 ->
  open_rb (fs w) (src self) = inl [] ->
  open_wb (fs w) (dst self) = inl fs' ->
  read_fails E 1 = false ->
  ∃ w', copy E self w = Some (set_running false self, w', Returned ON_SUCCESS)
        ∧ emitted w' = emitted w ++ [finished (job_id self)]
        ∧ progress_values (emitted w') = progress_values (emitted w)
        ∧ calls w' = calls w ++ [sys_open_rb (src self); sys_open_wb (dst self);
                                  sys_read 0; sys_copystat (src self) (dst self)]
        ∧ fs w' = fs'.
Proof.
  intros Hsize Hsrc Hdst Hread. eexists.
  unfold copy, _copyfile. simpl. rewrite Hsrc. simpl. rewrite Hdst, Hsize. simpl.
  unfold _copyfileobj. simpl. rewrite Hread. simpl. split; [reflexivity|]. simpl.
  split; [done|]. split.
  - rewrite progress_values_app. simpl. apply app_nil_r.
  - split; [|done]. by rewrite <- !app_assoc.
Qed.

(** ** The copy loops *)

Lemma percentage_quot (self : Transfer) (moved : Z) :
  0 < size self -> percentage moved self = Z.quot (moved * 100) (size self).
Proof.
  intros Hsize. unfold percentage, py_int, py_truediv, Qdiv, Qmult, Qinv, inject_Z.
  destruct (size self) as [|p|p]; [lia| |lia]; simpl.
  by rewrite Z.mul_1_r.
Qed.




Lemma chunk_nonempty (k : nat) (fsrc : list byte) :
  (Z.of_nat (length (take k fsrc)) =? 0) = false ->
  (0 < k)%nat ∧ (0 < length (take k fsrc))%nat
  ∧ (length (drop k fsrc) < length fsrc)%nat
  ∧ Z.of_nat (length (take k fsrc)) + Z.of_nat (length (drop k fsrc))
    = Z.of_nat (length fsrc).
Proof.
  intros Hn%Z.eqb_neq. rewrite length_take, length_drop in *. lia.
Qed.


(** With the fuel [_copyfileobj_readinto] gives it the loop returns. *)
Lemma readinto_loop_total (fuel : nat) :
  ∀ E buflen i moved fsrc self w,
    (length fsrc < fuel)%nat ->
    is_Some (readinto_loop fuel E buflen i moved fsrc self w).
Proof.
  induction fuel as [|fuel IH]; intros E buflen i moved fsrc self w Hlen; [lia|].
  cbn [readinto_loop]; cbv zeta.
  destruct (read_fails E i); [by eexists|].
  destruct (Z.of_nat _ =? 0) eqn:Hn; [by eexists|].
  destruct (write_fails E i); [by eexists|].
  destruct (size self =? 0); [by eexists|].
  destruct (negb _); [by eexists|].
  apply IH. apply chunk_nonempty in Hn. lia.
Qed.

Lemma copyfileobj_loop_total (fuel : nat) :
  ∀ E buflen i moved fsrc self w,
    (length fsrc < fuel)%nat ->
    is_Some (copyfileobj_loop fuel E buflen i moved fsrc self w).
Proof.
  induction fuel as [|fuel IH]; intros E buflen i moved fsrc self w Hlen; [lia|].
  cbn [copyfileobj_loop]; cbv zeta.
  destruct (read_fails E i); [by eexists|].
  destruct (take (Z.to_nat buflen) fsrc) as [|b buff] eqn:Hbuff; [by eexists|].
  destruct (write_fails E i); [by eexists|].
  destruct (size self =? 0); [by eexists|].
  destruct (negb _); [by eexists|].
  apply IH. rewrite length_drop.
  apply (f_equal length) in Hbuff. rewrite length_take in Hbuff. simpl in Hbuff. lia.
Qed.

(** Every call of [run] returns or raises: no loop runs out of fuel. *)
Lemma run_total (E : Env) (self : Transfer) (w : World) : is_Some (run E self w).
Proof.
  unfold run. destruct (file_exists _ _ _); [by eexists|].
  assert (is_Some (_copyfile E self w)) as [[[self1 w1] r1] Hcopy].
  { unfold _copyfile.
    destruct (open_rb _ _) as [fsrc|[]]; try by eexists.
    destruct (open_wb _ _) as [fs1|[]]; try by eexists.
    destruct (0 <? size self).
    - unfold _copyfileobj_readinto.
      edestruct readinto_loop_total as [[[? ?] ?] ->]; [|by eexists]. lia.
    - unfold _copyfileobj.
      edestruct copyfileobj_loop_total as [[[? ?] ?] ->]; [|by eexists]. lia. }
  unfold copy. rewrite Hcopy.
  destruct r1 as [[]|]; by eexists.
Qed.

(** ** Percentages of one job *)










(** ** Cancellation *)

Lemma chunk_signals_set_running (b : bool) (self : Transfer) (buflen : nat) (k : nat) :
  ∀ moved fsrc,
    chunk_signals (set_running b self) buflen moved fsrc k
    = chunk_signals self buflen moved fsrc k.
Proof.
  induction k as [|k IH]; intros moved fsrc; simpl; [done|].
  by rewrite IH.
Qed.

(** The loop stops at the first test of the flag that follows the
    request: [d] iterations go through, the next one ends the copy. *)
Lemma readinto_loop_cancel (E : Env) (buflen : Z) (self : Transfer) :
  size self ≠ 0 -> (0 < Z.to_nat buflen)%nat -> running self = true ->
  ∀ d fuel i moved fsrc w,
    (d < fuel)%nat ->
    (d * Z.to_nat buflen < length fsrc)%nat ->
    (∀ j, (i <= j <= i + d)%nat -> read_fails E j = false ∧ write_fails E j = false) ->
    (∀ j, (i <= j < i + d)%nat -> cancel_req E j = false) ->
    cancel_req E (i + d) = true ->
    ∃ w', readinto_loop fuel E buflen i moved fsrc self w
          = Some (set_running false self, w', ON_CANCEL)
          ∧ emitted w' = emitted w
                         ++ chunk_signals self (Z.to_nat buflen) moved fsrc (S d)
                         ++ [progress (job_id self) 100; finished (job_id self)]
          ∧ calls w' = calls w ++ chunk_calls (dst self) (Z.to_nat buflen) fsrc (S d)
          ∧ is_Some (files (fs w') !! dst self)
          ∧ delete (dst self) (files (fs w')) = delete (dst self) (files (fs w))
          ∧ dirs (fs w') = dirs (fs w).
Proof.
  intros Hsize Hbuf Hrun.
  induction d as [|d IH]; intros fuel i moved fsrc w Hfuel Hdata Hio Hquiet Hreq.
  - destruct fuel as [|fuel]; [lia|].
    cbn [readinto_loop]; cbv zeta.
    destruct (Hio i ltac:(lia)) as [-> ->].
    assert ((Z.of_nat (length (take (Z.to_nat buflen) fsrc)) =? 0) = false) as ->.
    { apply Z.eqb_neq. rewrite length_take. lia. }
    apply Z.eqb_neq in Hsize as ->.
    rewrite Nat.add_0_r in Hreq. rewrite Hreq. simpl.
    eexists. split; [reflexivity|]. simpl.
    rewrite <- !app_assoc. simpl.
    repeat split; try done.
    + rewrite lookup_insert_eq. by eexists.
    + apply delete_insert_eq.
  - destruct fuel as [|fuel]; [lia|].
    cbn [readinto_loop]; cbv zeta.
    destruct (Hio i ltac:(lia)) as [-> ->].
    assert ((Z.of_nat (length (take (Z.to_nat buflen) fsrc)) =? 0) = false) as ->.
    { apply Z.eqb_neq. rewrite length_take. lia. }
    apply Z.eqb_neq in Hsize as Hsize'. rewrite Hsize'.
    rewrite (Hquiet i) by lia. rewrite Hrun. simpl.
    edestruct (IH fuel (S i)) as (w' & -> & Hsig & Hcalls & Hfile & Hdel & Hdirs).
    + lia.
    + rewrite length_drop. simpl in Hdata. lia.
    + intros j Hj. apply Hio. lia.
    + intros j Hj. apply Hquiet. lia.
    + by rewrite Nat.add_succ_comm.
    + eexists. split; [reflexivity|].
      rewrite Hsig, Hcalls, Hdel, Hdirs. simpl.
      rewrite <- !app_assoc. simpl.
      repeat split; try done.
      apply delete_insert_eq.
Qed.

(** A request that reaches the loop: the copy is cancelled and the
    destination removed. *)
Lemma copy_cancelled (E : Env) (self : Transfer) (w : World)
    (data : list byte) (fs1 : FileSystem) (k : nat) :
  0 < size self ->
  open_rb (fs w) (src self) = inl data ->
  open_wb (fs w) (dst self) = inl fs1 ->
  (1 <= k)%nat ->
  ((k - 1) * Z.to_nat (Z.min 1048576 (size self)) < length data)%nat ->
  (∀ j, (1 <= j <= k)%nat -> read_fails E j = false ∧ write_fails E j = false) ->
  (∀ j, (1 <= j < k)%nat -> cancel_req E j = false) ->
  cancel_req E k = true ->
  ∃ w', copy E self w = Some (set_running false self, w', Returned ON_CANCEL)
        ∧ emitted w' = emitted w
                       ++ chunk_signals self (Z.to_nat (Z.min 1048576 (size self))) 0 data k
                       ++ [progress (job_id self) 100; finished (job_id self)]
        ∧ calls w' = calls w
                     ++ [sys_open_rb (src self); sys_open_wb (dst self)]
                     ++ chunk_calls (dst self) (Z.to_nat (Z.min 1048576 (size self))) data k
                     ++ [sys_unlink (dst self)]
        ∧ files (fs w') = delete (dst self) (files (fs w))
        ∧ os_path_exists (fs w') (dst self) = false.
Proof.
  intros Hsize Hsrc Hdst Hk Hdata Hio Hquiet Hreq.
  assert (os_path_isdir (fs w) (dst self) = false
          ∧ fs1 = set_files (<[dst self := []]> (files (fs w))) (fs w)) as [Hdir ->].
  { unfold open_wb in Hdst. destruct (bool_decide _); [done|].
    destruct (os_path_isdir _ _); [done|]. by injection Hdst as <-. }
  unfold copy, _copyfile. simpl. rewrite Hsrc. simpl. rewrite Hdst.
  apply Z.ltb_lt in Hsize as Hpos. rewrite Hpos.
  unfold _copyfileobj_readinto.
  destruct k as [|d]; [lia|]. simpl in Hdata. rewrite Nat.sub_0_r in Hdata.
  match goal with |- context [readinto_loop ?fuel _ _ _ _ _ _ ?w0] =>
    destruct (readinto_loop_cancel E (Z.min 1048576 (size self)) (set_running true self)
                ltac:(simpl; lia) ltac:(lia) eq_refl d fuel 1%nat 0 data w0)
      as (w1 & -> & Hsig & Hcalls & [content Hfile] & Hdel & Hdirs)
  end.
  - nia.
  - exact Hdata.
  - intros j Hj. apply Hio. lia.
  - intros j Hj. apply Hquiet. lia.
  - done.
  - simpl in *.
    unfold delete_file, os_unlink. simpl. rewrite Hfile. simpl.
    eexists. split; [reflexivity|]. simpl.
    rewrite Hsig, Hcalls, chunk_signals_set_running. simpl.
    rewrite <- !app_assoc. simpl.
    split; [done|]. split; [done|].
    rewrite Hdel, delete_insert_eq. split; [done|].
    unfold os_path_exists. simpl. rewrite Hdirs. simpl.
    unfold os_path_isdir in Hdir. rewrite Hdir. simpl.
    apply bool_decide_eq_false. rewrite lookup_delete_eq. by intros [? ?].
Qed.

End UtilsFacts.

(** C7, counterexample.  [/s/d] is dropped on [/x], where [/x/d] is a
    directory: the resolved destination [/x/d] exists, [file_exists]
    looks for [/x/d/d], finds nothing, and the job goes on to copy; no
    duplicate-file event is emitted. *)
Lemma C7_existing_directory_counterexample :
  dst Sample.workerD = "/x/d"
  ∧ os_path_exists (fs Sample.world) (dst Sample.workerD) = true
  ∧ file_exists (fs Sample.world) (src Sample.workerD) (dst Sample.workerD) = false
  ∧ ∃ w', run Sample.quiet Sample.workerD Sample.world
          = Some (Sample.workerD, w', Raised IsADirectoryError)
          ∧ emitted w' = []
          ∧ calls w' = [sys_open_rb "/s/d"; sys_open_wb "/x/d"].
Proof.
  repeat split; try (vm_compute; reflexivity).
  eexists. split; [vm_compute; reflexivity|].
  split; vm_compute; reflexivity.
Qed.

Lemma C7_existing_file_is_duplicate_witness :
  ∃ w', run Sample.quiet Sample.workerO Sample.world
        = Some (Sample.workerO, w', Returned ())
        ∧ emitted w' = [duplicate "/x/old"; progress "O" 100; finished "O"]
        ∧ fs w' = Sample.disk
        ∧ calls w' = [].
Proof.
  apply (C7_existing_file_is_duplicate Sample.quiet Sample.workerO Sample.world);
    vm_compute; reflexivity.
Defined.


(** C3, counterexample.  The empty file [/s/z], declared size 0, is
    copied to [/x/z]: the copy succeeds, the log holds the finished event
    alone, so the progress events are none instead of one of 100, and
    the loop has performed a read. *)
Lemma C3_zero_size_counterexample :
  ∃ w', copy Sample.quiet Sample.workerZ Sample.world
        = Some (Sample.workerZ, w', Returned ON_SUCCESS)
        ∧ emitted w' = [finished "Z"]
        ∧ progress_values (emitted w') = []
        ∧ progress_values (emitted w') ≠ [100]
        ∧ reads (calls w') = [0].
Proof.
  eexists. split; [vm_compute; reflexivity|].
  repeat split; try (vm_compute; reflexivity).
  vm_compute. intros Heq. discriminate Heq.
Qed.

Lemma C3_zero_size_copy_witness :
  ∃ w', copy Sample.quiet Sample.workerZ Sample.world
        = Some (set_running false Sample.workerZ, w', Returned ON_SUCCESS)
        ∧ emitted w' = [finished "Z"]
        ∧ progress_values (emitted w') = []
        ∧ calls w' = [sys_open_rb "/s/z"; sys_open_wb "/x/z";
                      sys_read 0; sys_copystat "/s/z" "/x/z"]
        ∧ fs w' = set_files (<["/x/z" := []]> (files Sample.disk)) Sample.disk.
Proof.
  apply (C3_zero_size_copy Sample.quiet Sample.workerZ Sample.world);
    vm_compute; reflexivity.
Defined.


(** C6, counterexample.  The three bytes of [/s/a] are copied in one
    chunk.  Cancel is pressed during the second iteration: after the loop
    has tested the flag at the end of the first one and before the read
    that finds the end of the stream.  That read returns no bytes and the
    loop returns Success without looking at the flag: no closing progress
    event of 100 is emitted, nothing is deleted, and the destination
    exists with the three bytes. *)
Lemma C6_late_request_counterexample :
  ∃ w', cancel_req Sample.cancel_second 2 = true
        ∧ copy Sample.cancel_second Sample.workerA Sample.world
          = Some (set_running false Sample.workerA, w', Returned ON_SUCCESS)
        ∧ emitted w' = [transferred "A" 3; progress "A" 100; finished "A"]
        ∧ deletions (calls w') = []
        ∧ files (fs w') !! "/x/a" = Some [Byte.x01; Byte.x02; Byte.x03]
        ∧ os_path_exists (fs w') "/x/a" = true.
Proof.
  eexists. split; [reflexivity|].
  split; [vm_compute; reflexivity|].
  repeat split; vm_compute; reflexivity.
Qed.

(** * Further properties *)

(** ** The two copy loops *)

Lemma copyfileobj_loop_readinto_loop (fuel : nat) :
  ∀ E buflen i moved fsrc self w,
    copyfileobj_loop fuel E buflen i moved fsrc self w
    = readinto_loop fuel E buflen i moved fsrc self w.
Proof.
  induction fuel as [|fuel IH]; intros E buflen i moved fsrc self w; [done|].
  cbn [copyfileobj_loop readinto_loop]; cbv zeta.
  destruct (read_fails E i); [done|].
  destruct (take (Z.to_nat buflen) fsrc) as [|b buff] eqn:Hbuff; [done|].
  replace (Z.of_nat (length (b :: buff)) =? 0) with false
    by (symmetry; apply Z.eqb_neq; simpl length; lia).
  destruct (write_fails E i); [done|].
  destruct (size self =? 0); [done|].
  destruct (negb _); [done|]. apply IH.
Qed.


(** ** What every execution of the loop does *)

Lemma set_running_same (self : Transfer) :
  running self = false -> self = set_running false self.
Proof. destruct self; simpl; by intros ->. Qed.

Lemma deletions_snoc_read (cs : list SysCall) (n : Z) :
  deletions (cs ++ [sys_read n]) = deletions cs.
Proof. unfold deletions. rewrite omap_app. simpl. apply app_nil_r. Qed.

Lemma deletions_snoc_write (cs : list SysCall) (p : string) (n : Z) :
  deletions (cs ++ [sys_write p n]) = deletions cs.
Proof. unfold deletions. rewrite omap_app. simpl. apply app_nil_r. Qed.

Lemma readinto_loop_general (fuel : nat) :
  ∀ E buflen i moved fsrc self w self' w' o,
    readinto_loop fuel E buflen i moved fsrc self w = Some (self', w', o) ->
    ∃ body,
      emitted w' = emitted w ++ body ++ [finished (job_id self)]
      ∧ Forall (λ s, is_report (job_id self) s = true) body
      ∧ self' = set_running false self
      ∧ deletions (calls w') = deletions (calls w)
      ∧ dirs (fs w') = dirs (fs w)
      ∧ read_denied (fs w') = read_denied (fs w)
      ∧ write_denied (fs w') = write_denied (fs w)
      ∧ (∀ p, p ≠ dst self -> files (fs w') !! p = files (fs w) !! p).
Proof.
  induction fuel as [|fuel IH];
    intros E buflen i moved fsrc self w self' w' o; [done|].
  cbn [readinto_loop]; cbv zeta.
  destruct (read_fails E i).
  { intros [= <- <- <-]. exists [progress (job_id self) 100]. simpl.
    rewrite <- app_assoc. repeat split; try done.
    apply Forall_singleton. simpl. by apply bool_decide_eq_true. }
  destruct (Z.of_nat _ =? 0) eqn:Hn.
  { intros [= <- <- <-]. exists []. simpl.
    rewrite deletions_snoc_read. repeat split; done. }
  destruct (write_fails E i).
  { intros [= <- <- <-]. exists [progress (job_id self) 100]. simpl.
    rewrite deletions_snoc_read, <- app_assoc. repeat split; try done.
    apply Forall_singleton. simpl. by apply bool_decide_eq_true. }
  set (n := Z.of_nat (length (take (Z.to_nat buflen) fsrc))) in *.
  destruct (size self =? 0).
  { intros [= <- <- <-]. exists [progress (job_id self) 100]. simpl.
    rewrite deletions_snoc_write, deletions_snoc_read, <- app_assoc.
    repeat split; try done.
    - apply Forall_singleton. simpl. by apply bool_decide_eq_true.
    - intros p Hp. by rewrite lookup_insert_ne. }
  destruct (negb _) eqn:Hstop.
  { intros [= <- <- <-].
    assert ((if cancel_req E i then set_running false self else self)
            = set_running false self) as ->.
    { destruct (cancel_req E i); [done|]. apply set_running_same.
      by destruct (running self). }
    exists [transferred (job_id self) (moved + n);
            progress (job_id self) (percentage (moved + n) self);
            progress (job_id self) 100]. simpl.
    rewrite deletions_snoc_write, deletions_snoc_read, <- !app_assoc. simpl.
    repeat split; try done.
    - repeat apply Forall_cons_2; try apply Forall_nil_2;
        simpl; by apply bool_decide_eq_true.
    - intros p Hp. by rewrite lookup_insert_ne. }
  assert ((if cancel_req E i then set_running false self else self) = self) as ->.
  { destruct (cancel_req E i); [done|done]. }
  intros Hloop.
  apply IH in Hloop as (body & Hsig & Hrep & Hself & Hdel & Hdirs & Hrd & Hwd & Hfiles).
  exists (transferred (job_id self) (moved + n)
          :: progress (job_id self) (percentage (moved + n) self) :: body).
  rewrite Hsig, Hdel, Hdirs, Hrd, Hwd. simpl.
  rewrite deletions_snoc_write, deletions_snoc_read, <- !app_assoc. simpl.
  repeat split; try done.
  - repeat apply Forall_cons_2; try done; simpl; by apply bool_decide_eq_true.
  - intros p Hp. rewrite Hfiles by done. simpl. by rewrite lookup_insert_ne.
Qed.

(** ** Chunks *)

Lemma chunk_count_nil (k : nat) : (0 < k)%nat -> chunk_count k [] = 0%nat.
Proof. intros Hk. unfold chunk_count. simpl. apply Nat.div_small. lia. Qed.

Lemma chunk_count_step (k : nat) (fsrc : list byte) :
  (0 < k)%nat -> fsrc ≠ [] ->
  chunk_count k fsrc = S (chunk_count k (drop k fsrc)).
Proof.
  intros Hk Hne. unfold chunk_count. rewrite length_drop.
  assert (0 < length fsrc)%nat as Hlen by (destruct fsrc; [done|simpl; lia]).
  replace (length fsrc + k - 1)%nat with ((length fsrc - 1) + 1 * k)%nat by lia.
  rewrite Nat.div_add by lia.
  destruct (decide (k <= length fsrc)%nat) as [Hle|Hgt].
  - replace (length fsrc - k + k - 1)%nat with (length fsrc - 1)%nat by lia. lia.
  - replace (length fsrc - k + k - 1)%nat with (k - 1)%nat by lia.
    rewrite !Nat.div_small by lia. lia.
Qed.

(** The last byte count and the last percentage the signals of all the
    chunks of a stream carry. *)
Lemma chunk_signals_last (self : Transfer) (k : nat) :
  (0 < k)%nat ->
  ∀ bound fsrc moved,
    (length fsrc <= bound)%nat ->
    fsrc ≠ [] ->
    last (transferred_values (chunk_signals self k moved fsrc (chunk_count k fsrc)))
    = Some (moved + Z.of_nat (length fsrc))
    ∧ last (progress_values (chunk_signals self k moved fsrc (chunk_count k fsrc)))
      = Some (percentage (moved + Z.of_nat (length fsrc)) self).
Proof.
  intros Hk. induction bound as [|bound IH]; intros fsrc moved Hlen Hne.
  { destruct fsrc; [done|simpl in Hlen; lia]. }
  rewrite chunk_count_step by done. simpl.
  destruct (decide (drop k fsrc = [])) as [Hdrop|Hdrop].
  - rewrite Hdrop, chunk_count_nil by done. simpl.
    apply drop_nil_inv in Hdrop. rewrite take_ge by done. done.
  - assert (length (drop k fsrc) <= bound)%nat as Hlen'.
    { rewrite length_drop. destruct fsrc; [done|simpl in *; lia]. }
    destruct (IH (drop k fsrc) (moved + Z.of_nat (length (take k fsrc))) Hlen' Hdrop)
      as [Ht Hp].
    rewrite !last_cons, Ht, Hp.
    assert (Z.of_nat (length (take k fsrc)) + Z.of_nat (length (drop k fsrc))
            = Z.of_nat (length fsrc)) as Hsplit.
    { rewrite <- Nat2Z.inj_add, <- length_app, take_drop. done. }
    rewrite <- Hsplit, Z.add_assoc. done.
Qed.

(** ** A copy nobody disturbs *)

Lemma readinto_loop_success (E : Env) (buflen : Z) (self : Transfer) :
  size self ≠ 0 -> (0 < Z.to_nat buflen)%nat -> running self = true ->
  ∀ fuel i moved fsrc w old,
    (length fsrc < fuel)%nat ->
    files (fs w) !! dst self = Some old ->
    (∀ j, (i <= j <= i + chunk_count (Z.to_nat buflen) fsrc)%nat ->
          read_fails E j = false) ->
    (∀ j, (i <= j < i + chunk_count (Z.to_nat buflen) fsrc)%nat ->
          write_fails E j = false ∧ cancel_req E j = false) ->
    ∃ w', readinto_loop fuel E buflen i moved fsrc self w
          = Some (set_running false self, w', ON_SUCCESS)
          ∧ emitted w' = emitted w
              ++ chunk_signals self (Z.to_nat buflen) moved fsrc
                   (chunk_count (Z.to_nat buflen) fsrc)
              ++ [finished (job_id self)]
          ∧ calls w' = calls w
              ++ chunk_calls (dst self) (Z.to_nat buflen) fsrc
                   (chunk_count (Z.to_nat buflen) fsrc)
              ++ [sys_read 0]
          ∧ files (fs w') = <[dst self := old ++ fsrc]> (files (fs w))
          ∧ dirs (fs w') = dirs (fs w).
Proof.
  intros Hsize Hbuf Hrun.
  induction fuel as [|fuel IH]; intros i moved fsrc w old Hfuel Hold Hread Hquiet; [lia|].
  cbn [readinto_loop]; cbv zeta.
  rewrite (Hread i) by lia.
  destruct (decide (fsrc = [])) as [->|Hne].
  - rewrite take_nil. simpl. eexists. split; [reflexivity|].
    rewrite chunk_count_nil by done. simpl.
    rewrite app_nil_r, insert_id by done. done.
  - rewrite chunk_count_step in * by done.
    assert ((Z.of_nat (length (take (Z.to_nat buflen) fsrc)) =? 0) = false) as ->.
    { apply Z.eqb_neq. rewrite length_take. destruct fsrc; [done|simpl; lia]. }
    destruct (Hquiet i ltac:(lia)) as [-> ->].
    apply Z.eqb_neq in Hsize as Hsize'. rewrite Hsize', Hrun. simpl negb. cbv iota.
    edestruct (IH (S i)) as (w' & -> & Hsig & Hcalls & Hfiles & Hdirs).
    + rewrite length_drop. destruct fsrc; [done|simpl in *; lia].
    + simpl. apply lookup_insert_eq.
    + intros j Hj. apply Hread. lia.
    + intros j Hj. apply Hquiet. lia.
    + eexists. split; [reflexivity|].
      rewrite Hsig, Hcalls, Hfiles, Hdirs. simpl.
      rewrite Hold. simpl.
      rewrite <- !app_assoc, insert_insert_eq, take_drop. done.
Qed.

(** ** A copy that an input or output error interrupts *)


(** ** Outcomes of [copy] *)

Section CopyOutcomes.
Context `{Platform}.

Lemma open_wb_inv (fs0 fs1 : FileSystem) (p : string) :
  open_wb fs0 p = inl fs1 ->
  os_path_isdir fs0 p = false
  ∧ fs1 = set_files (<[p := []]> (files fs0)) fs0.
Proof.
  unfold open_wb. destruct (bool_decide _); [done|].
  destruct (os_path_isdir _ _); [done|]. by intros [= <-].
Qed.

Lemma copy_success_general (E : Env) (self : Transfer) (w : World)
    (data : list byte) (fs1 : FileSystem) :
  0 < size self ->
  src self ≠ dst self ->
  open_rb (fs w) (src self) = inl data ->
  open_wb (fs w) (dst self) = inl fs1 ->
  (∀ j, (1 <= j <= 1 + chunk_count (Z.to_nat (Z.min 1048576 (size self))) data)%nat ->
        read_fails E j = false) ->
  (∀ j, (1 <= j < 1 + chunk_count (Z.to_nat (Z.min 1048576 (size self))) data)%nat ->
        write_fails E j = false ∧ cancel_req E j = false) ->
  ∃ w', copy E self w = Some (set_running false self, w', Returned ON_SUCCESS)
        ∧ files (fs w') = <[dst self := data]> (files (fs w))
        ∧ emitted w' = emitted w
            ++ chunk_signals self (Z.to_nat (Z.min 1048576 (size self))) 0 data
                 (chunk_count (Z.to_nat (Z.min 1048576 (size self))) data)
            ++ [finished (job_id self)]
        ∧ calls w' = calls w
            ++ [sys_open_rb (src self); sys_open_wb (dst self)]
            ++ chunk_calls (dst self) (Z.to_nat (Z.min 1048576 (size self))) data
                 (chunk_count (Z.to_nat (Z.min 1048576 (size self))) data)
            ++ [sys_read 0; sys_copystat (src self) (dst self)].
Proof.
  intros Hsize _ Hsrc Hdst Hread Hquiet.
  apply open_wb_inv in Hdst as Hinv. destruct Hinv as [Hdir ->].
  unfold copy, _copyfile. simpl. rewrite Hsrc. simpl. rewrite Hdst.
  apply Z.ltb_lt in Hsize as Hpos. rewrite Hpos.
  unfold _copyfileobj_readinto.
  match goal with |- context [readinto_loop ?fuel _ _ _ _ _ _ ?w0] =>
    destruct (readinto_loop_success E (Z.min 1048576 (size self)) (set_running true self)
                ltac:(simpl; lia) ltac:(lia) eq_refl fuel 1%nat 0 data w0 [])
      as (w1 & -> & Hsig & Hcalls & Hfiles & Hdirs)
  end.
  - lia.
  - simpl. apply lookup_insert_eq.
  - exact Hread.
  - exact Hquiet.
  - simpl in *. eexists. split; [reflexivity|]. simpl.
    rewrite Hfiles, Hsig, Hcalls, chunk_signals_set_running. simpl.
    rewrite insert_insert_eq. split; [done|]. split; [done|].
    by rewrite <- !app_assoc.
Qed.

(** X1.  A copy nobody disturbs: when the declared size is positive, both
    streams open and no read or write fails and no cancellation arrives
    while the chunks are moved, [copy] returns Success, the destination
    holds exactly the bytes of the source - whatever the declared size -
    and the metadata is copied; nothing is deleted.  (Source and
    destination are different files, as [run] ensures.) *)
Theorem copy_success_copies_content (E : Env) (self : Transfer) (w : World)
    (data : list byte) (fs1 : FileSystem) :
  0 < size self ->
  src self ≠ dst self ->
  open_rb (fs w) (src self) = inl data ->
  open_wb (fs w) (dst self) = inl fs1 ->
  (∀ j, (1 <= j <= 1 + chunk_count (Z.to_nat (Z.min 1048576 (size self))) data)%nat ->
        read_fails E j = false) ->
  (∀ j, (1 <= j < 1 + chunk_count (Z.to_nat (Z.min 1048576 (size self))) data)%nat ->
        write_fails E j = false ∧ cancel_req E j = false) ->
  ∃ w', copy E self w = Some (set_running false self, w', Returned ON_SUCCESS)
        ∧ files (fs w') = <[dst self := data]> (files (fs w))
        ∧ emitted w' = emitted w
            ++ chunk_signals self (Z.to_nat (Z.min 1048576 (size self))) 0 data
                 (chunk_count (Z.to_nat (Z.min 1048576 (size self))) data)
            ++ [finished (job_id self)]
        ∧ calls w' = calls w
            ++ [sys_open_rb (src self); sys_open_wb (dst self)]
            ++ chunk_calls (dst self) (Z.to_nat (Z.min 1048576 (size self))) data
                 (chunk_count (Z.to_nat (Z.min 1048576 (size self))) data)
            ++ [sys_read 0; sys_copystat (src self) (dst self)].
Proof. apply copy_success_general. Qed.


(** X3.  A source that yields bytes although it is declared empty: the
    first chunk is written, the percentage divides by zero, and the copy
    ends with Error after a progress event of 100 and the finished
    event, no byte count or percentage having been reported; the
    destination keeps the chunk. *)
Theorem copy_zero_declared_size (E : Env) (self : Transfer) (w : World)
    (data : list byte) (fs1 : FileSystem) :
  size self = 0 ->
  src self ≠ dst self ->
  open_rb (fs w) (src self) = inl data ->
  data ≠ [] ->
  open_wb (fs w) (dst self) = inl fs1 ->
  read_fails E 1 = false ->
  write_fails E 1 = false ->
  ∃ w', copy E self w = Some (set_running false self, w', Returned ON_ERROR)
        ∧ emitted w' = emitted w ++ [progress (job_id self) 100; finished (job_id self)]
        ∧ deletions (calls w') = deletions (calls w)
        ∧ files (fs w') = <[dst self := take (Z.to_nat 1048576) data]> (files (fs w)).
Proof.
  intros Hsize _ Hsrc Hne Hdst Hread Hwrite.
  apply open_wb_inv in Hdst as Hinv. destruct Hinv as [Hdir ->].
  unfold copy, _copyfile. simpl fs. rewrite Hsrc. simpl fs. rewrite Hdst, Hsize.
  change (0 <? 0) with false. cbv iota.
  unfold _copyfileobj. cbn [copyfileobj_loop]; cbv zeta.
  rewrite Hread.
  destruct (take (Z.to_nat 1048576) data) as [|b buff] eqn:Hbuff.
  { apply take_nil_inv in Hbuff as [?|?]; [lia|done]. }
  cbn [size dst job_id set_running]. rewrite Hwrite, Hsize.
  change (0 =? 0) with true. cbv iota.
  unfold on_exception, lift_outcome.
  eexists. split; [reflexivity|].
  cbn [emitted calls fs emit call set_fs set_files files fs_write job_id set_running].
  rewrite !deletions_app. cbn [deletions omap]. rewrite !app_nil_r.
  rewrite lookup_insert_eq, insert_insert_eq, <- app_assoc. done.
Qed.

End CopyOutcomes.

(** ** What every job does *)

Section RunFacts.
Context `{Platform}.

(** What holds between the world [w] a job of identifier [job] and
    destination [d] starts in and the world [w'] it leaves: only signals
    [sigs] are added to the log, and no file but [d] changes. *)
Lemma copyfile_general (E : Env) (self self' : Transfer) (w w' : World)
    (r : Completion Outcome) :
  _copyfile E self w = Some (self', w', r) ->
  ∃ sigs,
    emitted w' = emitted w ++ sigs
    ∧ set_running false self' = set_running false self
    ∧ deletions (calls w') = deletions (calls w)
    ∧ dirs (fs w') = dirs (fs w)
    ∧ read_denied (fs w') = read_denied (fs w)
    ∧ write_denied (fs w') = write_denied (fs w)
    ∧ (∀ p, p ≠ dst self -> files (fs w') !! p = files (fs w) !! p)
    ∧ match r with
      | Returned _ =>
          ∃ body, sigs = body ++ [finished (job_id self)]
                  ∧ Forall (λ s, is_report (job_id self) s = true) body
      | Raised e => sigs = [] ∧ e ≠ PermissionError ∧ fs w' = fs w
      end.
Proof.
  unfold _copyfile.
  assert (∀ w0 : World,
    emitted w0 = emitted w -> deletions (calls w0) = deletions (calls w) ->
    fs w0 = fs w ->
    on_permission_error self w0 = Some (self', w', r) ->
    ∃ sigs,
      emitted w' = emitted w ++ sigs
      ∧ set_running false self' = set_running false self
      ∧ deletions (calls w') = deletions (calls w)
      ∧ dirs (fs w') = dirs (fs w)
      ∧ read_denied (fs w') = read_denied (fs w)
      ∧ write_denied (fs w') = write_denied (fs w)
      ∧ (∀ p, p ≠ dst self -> files (fs w') !! p = files (fs w) !! p)
      ∧ match r with
        | Returned _ =>
            ∃ body, sigs = body ++ [finished (job_id self)]
                    ∧ Forall (λ s, is_report (job_id self) s = true) body
        | Raised e => sigs = [] ∧ e ≠ PermissionError ∧ fs w' = fs w
        end) as Hperm.
  { intros w0 Hsig Hdel Hfs [= <- <- <-].
    exists [progress (job_id self) 100; finished (job_id self)]. simpl.
    rewrite Hsig, Hdel, Hfs, <- app_assoc. repeat split; try done.
    exists [progress (job_id self) 100]. split; [done|].
    apply Forall_singleton. simpl. by apply bool_decide_eq_true. }
  assert (∀ (w0 : World) (e : PyExn),
    emitted w0 = emitted w -> deletions (calls w0) = deletions (calls w) ->
    fs w0 = fs w -> e ≠ PermissionError ->
    Some (self, w0, @Raised Outcome e) = Some (self', w', r) ->
    ∃ sigs,
      emitted w' = emitted w ++ sigs
      ∧ set_running false self' = set_running false self
      ∧ deletions (calls w') = deletions (calls w)
      ∧ dirs (fs w') = dirs (fs w)
      ∧ read_denied (fs w') = read_denied (fs w)
      ∧ write_denied (fs w') = write_denied (fs w)
      ∧ (∀ p, p ≠ dst self -> files (fs w') !! p = files (fs w) !! p)
      ∧ match r with
        | Returned _ =>
            ∃ body, sigs = body ++ [finished (job_id self)]
                    ∧ Forall (λ s, is_report (job_id self) s = true) body
        | Raised e => sigs = [] ∧ e ≠ PermissionError ∧ fs w' = fs w
        end) as Hraise.
  { intros w0 e Hsig Hdel Hfs He [= <- <- <-]. exists [].
    rewrite Hsig, Hdel, Hfs, app_nil_r. repeat split; done. }
  assert (∀ cs c, deletions [c] = [] -> deletions (cs ++ [c]) = deletions cs) as Hkeep.
  { intros cs c Hc. by rewrite deletions_app, Hc, app_nil_r. }
  cbn [fs call].
  destruct (open_rb (fs w) (src self)) as [fsrc|e] eqn:Hsrc.
  2:{ destruct e; [apply Hperm|apply Hraise..]; try done; by apply Hkeep. }
  destruct (open_wb (fs w) (dst self)) as [fs1|e] eqn:Hdst.
  2:{ destruct e; [apply Hperm|apply Hraise..]; try done;
        cbn [calls call]; by rewrite !Hkeep. }
  apply open_wb_inv in Hdst as [Hdir ->].
  unfold _copyfileobj. rewrite copyfileobj_loop_readinto_loop.
  change (readinto_loop (S (length fsrc)) E ?b 1 0 fsrc (set_running true self) ?w0)
    with (_copyfileobj_readinto E fsrc b self w0).
  assert (∀ buflen,
    lift_outcome
      (_copyfileobj_readinto E fsrc buflen self
         (set_fs (set_files (<[dst self := []]> (files (fs w))) (fs w))
            (call (sys_open_wb (dst self)) (call (sys_open_rb (src self)) w))))
    = Some (self', w', r) ->
    ∃ sigs,
      emitted w' = emitted w ++ sigs
      ∧ set_running false self' = set_running false self
      ∧ deletions (calls w') = deletions (calls w)
      ∧ dirs (fs w') = dirs (fs w)
      ∧ read_denied (fs w') = read_denied (fs w)
      ∧ write_denied (fs w') = write_denied (fs w)
      ∧ (∀ p, p ≠ dst self -> files (fs w') !! p = files (fs w) !! p)
      ∧ match r with
        | Returned _ =>
            ∃ body, sigs = body ++ [finished (job_id self)]
                    ∧ Forall (λ s, is_report (job_id self) s = true) body
        | Raised e => sigs = [] ∧ e ≠ PermissionError ∧ fs w' = fs w
        end) as Hloop.
  { intros buflen. unfold _copyfileobj_readinto.
    destruct (readinto_loop _ _ _ _ _ _ _ _) as [[[self1 w1] o]|] eqn:Hloop; [|done].
    simpl. intros [= <- <- <-].
    apply readinto_loop_general in Hloop
      as (body & Hsig & Hrep & -> & Hdel & Hdirs & Hrd & Hwd & Hfiles).
    exists (body ++ [finished (job_id self)]).
    rewrite Hsig, Hdel, Hdirs, Hrd, Hwd. cbn [emitted calls set_fs call fs].
    rewrite !Hkeep by done. repeat split; try done.
    - intros p Hp. rewrite Hfiles by done. simpl. by rewrite lookup_insert_ne.
    - by exists body. }
  destruct (0 <? size self); apply Hloop.
Qed.

Lemma copy_general (E : Env) (self self' : Transfer) (w w' : World)
    (r : Completion Outcome) :
  copy E self w = Some (self', w', r) ->
  ∃ sigs,
    emitted w' = emitted w ++ sigs
    ∧ set_running false self' = set_running false self
    ∧ deletions (calls w')
      = deletions (calls w)
        ++ match r with Returned ON_CANCEL => [dst self] | _ => [] end
    ∧ dirs (fs w') = dirs (fs w)
    ∧ read_denied (fs w') = read_denied (fs w)
    ∧ write_denied (fs w') = write_denied (fs w)
    ∧ (∀ p, p ≠ dst self -> files (fs w') !! p = files (fs w) !! p)
    ∧ match r with
      | Returned _ =>
          ∃ body, sigs = body ++ [finished (job_id self)]
                  ∧ Forall (λ s, is_report (job_id self) s = true) body
      | Raised e => sigs = [] ∧ e ≠ PermissionError ∧ fs w' = fs w
      end.
Proof.
  unfold copy.
  destruct (_copyfile E self w) as [[[self1 w1] r1]|] eqn:Hcopy; [|done].
  apply copyfile_general in Hcopy
    as (sigs & Hsig & Hself & Hdel & Hdirs & Hrd & Hwd & Hfiles & Hshape).
  assert (dst self1 = dst self) as Hd by (by apply (f_equal dst) in Hself).
  destruct r1 as [[]|e]; intros [= <- <- <-]; exists sigs.
  - unfold copy_stat. cbn [emitted calls fs call].
    rewrite deletions_app, Hdel. simpl. repeat split; done.
  - rewrite Hd. unfold os_unlink.
    destruct (files (fs w1) !! dst self) eqn:Hfile; simpl;
      rewrite deletions_app, Hdel; simpl; repeat split; try done.
    intros p Hp. rewrite lookup_delete_ne by done. by apply Hfiles.
  - rewrite app_nil_r. by repeat split.
  - rewrite app_nil_r. destruct Hshape as (? & ? & ?). by repeat split.
Qed.

Lemma run_general (E : Env) (self self' : Transfer) (w w' : World)
    (r : Completion unit) :
  run E self w = Some (self', w', r) ->
  ∃ sigs,
    emitted w' = emitted w ++ sigs
    ∧ set_running false self' = set_running false self
    ∧ (deletions (calls w') = deletions (calls w)
       ∨ deletions (calls w') = deletions (calls w) ++ [dst self])
    ∧ dirs (fs w') = dirs (fs w)
    ∧ read_denied (fs w') = read_denied (fs w)
    ∧ write_denied (fs w') = write_denied (fs w)
    ∧ (∀ p, p ≠ dst self -> files (fs w') !! p = files (fs w) !! p)
    ∧ match r with
      | Returned _ =>
          ∃ body, sigs = body ++ [finished (job_id self)]
                  ∧ Forall (λ s, is_report (job_id self) s = true) body
      | Raised e => sigs = [] ∧ e ≠ PermissionError ∧ fs w' = fs w
      end.
Proof.
  unfold run. destruct (file_exists _ _ _).
  { intros [= <- <- <-].
    exists [duplicate (dst self); progress (job_id self) 100; finished (job_id self)].
    simpl. rewrite <- !app_assoc. repeat split; try done; [by left|].
    exists [duplicate (dst self); progress (job_id self) 100]. split; [done|].
    repeat apply Forall_cons_2; try apply Forall_nil_2; [done|].
    simpl. by apply bool_decide_eq_true. }
  destruct (copy E self w) as [[[self1 w1] r1]|] eqn:Hcopy; [|done].
  apply copy_general in Hcopy
    as (sigs & Hsig & Hself & Hdel & Hdirs & Hrd & Hwd & Hfiles & Hshape).
  destruct r1 as [o|e]; intros [= <- <- <-]; exists sigs; repeat split; try done.
  - destruct o; rewrite ?app_nil_r in Hdel; auto.
  - rewrite app_nil_r in Hdel. by left.
  - by destruct Hshape.
  - by destruct Hshape as (_ & ? & _).
  - by destruct Hshape as (_ & _ & ?).
Qed.

(** X4.  An error at [open] that is not a permission error escapes
    silently.  When the destination is not found to exist and opening the
    source, or the destination after it, raises another error than
    [PermissionError] (the source has vanished; on POSIX the destination
    is a directory), the exception escapes from [run]: the job emits no
    signal at all - no [finished] either - deletes nothing and leaves the
    file system as it was. *)
Theorem open_error_escapes_silently (E : Env) (self : Transfer) (w : World)
    (e : PyExn) :
  file_exists (fs w) (src self) (dst self) = false ->
  e ≠ PermissionError ->
  open_rb (fs w) (src self) = inr e
  ∨ (∃ data, open_rb (fs w) (src self) = inl data
             ∧ open_wb (fs w) (dst self) = inr e) ->
  ∃ w', run E self w = Some (self, w', Raised e)
        ∧ emitted w' = emitted w
        ∧ fs w' = fs w
        ∧ deletions (calls w') = deletions (calls w).
Proof.
  intros Hex He Hopen. unfold run, copy, _copyfile. rewrite Hex. cbn [fs call].
  destruct Hopen as [Hsrc|(data & Hsrc & Hdst)].
  - rewrite Hsrc. destruct e; try done; eexists; (split; [reflexivity|]);
      cbn [emitted fs calls call]; by rewrite deletions_app, app_nil_r.
  - rewrite Hsrc. cbn [fs call]. rewrite Hdst.
    destruct e; try done; eexists; (split; [reflexivity|]);
      cbn [emitted fs calls call]; by rewrite !deletions_app, !app_nil_r.
Qed.

(** X5.  What a job never touches: whatever happens during [run], no
    file other than the job's destination is created, changed or
    removed, no directory is created or removed, the only path the job
    may delete is its destination, and the job object changes in its
    [running] flag at most. *)
Theorem run_frame (E : Env) (self : Transfer) (w : World) :
  ∃ self' w' r,
    run E self w = Some (self', w', r)
    ∧ (∀ p, p ≠ dst self -> files (fs w') !! p = files (fs w) !! p)
    ∧ dirs (fs w') = dirs (fs w)
    ∧ (deletions (calls w') = deletions (calls w)
       ∨ deletions (calls w') = deletions (calls w) ++ [dst self])
    ∧ set_running false self' = set_running false self.
Proof.
  destruct (run_total E self w) as [[[self' w'] r] Hrun].
  destruct (run_general _ _ _ _ _ _ Hrun)
    as (sigs & _ & Hself & Hdel & Hdirs & _ & _ & Hfiles & _).
  by exists self', w', r.
Qed.

(** ** Cancellation, in time and too late *)

(** C6 (amended).  A job of positive declared size is copying, source and
    destination having opened.  When the GUI thread clears the [running]
    flag during an iteration [k] of the loop that moves a chunk - after
    the loop has raised the flag, before the loop tests it at the end of
    the iteration, no read or write having failed - the byte mover ends
    iteration [k], emits a last progress event of 100 and the finished
    event, and returns Cancelled: it has written [k] chunks and writes
    nothing more; the job then deletes the destination with [os.unlink],
    and the destination path does not exist afterwards.  A request that
    comes later, after the test that follows the last chunk, is not seen:
    whatever the flag is set to from then on, the read that finds the end
    of the stream makes the copy return Success with the finished event
    and no closing progress event, nothing is deleted, and the
    destination exists and holds the bytes of the source. *)
Theorem C6_cancel_removes_partial_file (E : Env) (self : Transfer) (w : World)
    (data : list byte) (fs1 : FileSystem) :
  0 < size self ->
  open_rb (fs w) (src self) = inl data ->
  open_wb (fs w) (dst self) = inl fs1 ->
  (∀ k,
     (1 <= k)%nat ->
     ((k - 1) * Z.to_nat (Z.min 1048576 (size self)) < length data)%nat ->
     (∀ j, (1 <= j <= k)%nat -> read_fails E j = false ∧ write_fails E j = false) ->
     (∀ j, (1 <= j < k)%nat -> cancel_req E j = false) ->
     cancel_req E k = true ->
     ∃ w', copy E self w = Some (set_running false self, w', Returned ON_CANCEL)
           ∧ emitted w' = emitted w
               ++ chunk_signals self (Z.to_nat (Z.min 1048576 (size self))) 0 data k
               ++ [progress (job_id self) 100; finished (job_id self)]
           ∧ calls w' = calls w
               ++ [sys_open_rb (src self); sys_open_wb (dst self)]
               ++ chunk_calls (dst self) (Z.to_nat (Z.min 1048576 (size self))) data k
               ++ [sys_unlink (dst self)]
           ∧ files (fs w') = delete (dst self) (files (fs w))
           ∧ os_path_exists (fs w') (dst self) = false)
  ∧ (src self ≠ dst self ->
     (∀ j, (1 <= j <= 1 + chunk_count (Z.to_nat (Z.min 1048576 (size self))) data)%nat ->
           read_fails E j = false) ->
     (∀ j, (1 <= j < 1 + chunk_count (Z.to_nat (Z.min 1048576 (size self))) data)%nat ->
           write_fails E j = false ∧ cancel_req E j = false) ->
     ∃ w', copy E self w = Some (set_running false self, w', Returned ON_SUCCESS)
           ∧ emitted w' = emitted w
               ++ chunk_signals self (Z.to_nat (Z.min 1048576 (size self))) 0 data
                    (chunk_count (Z.to_nat (Z.min 1048576 (size self))) data)
               ++ [finished (job_id self)]
           ∧ deletions (calls w') = deletions (calls w)
           ∧ files (fs w') = <[dst self := data]> (files (fs w))
           ∧ os_path_exists (fs w') (dst self) = true).
Proof.
  intros Hsize Hsrc Hdst. split.
  - intros k. by apply (copy_cancelled E self w data fs1 k).
  - intros Hdistinct Hread Hquiet.
    destruct (copy_success_general E self w data fs1 Hsize Hdistinct Hsrc Hdst Hread Hquiet)
      as (w' & Hcopy & Hfiles & Hsig & _).
    destruct (copy_general _ _ _ _ _ _ Hcopy) as (_ & _ & _ & Hdel & _).
    exists w'. split; [done|]. split; [done|].
    split; [by rewrite Hdel, app_nil_r|]. split; [done|].
    unfold os_path_exists. rewrite Hfiles, lookup_insert_eq.
    rewrite (bool_decide_true (is_Some (Some data))) by eauto. apply orb_true_r.
Qed.

End RunFacts.

(** ** File names *)

Section BasenameFacts.
Context `{Platform}.

Lemma rstrip_snoc (chars : list ascii) (c : ascii) (s : string) :
  c ∈ chars -> rstrip chars (String.append s (String c EmptyString)) = rstrip chars s.
Proof.
  intros Hc. induction s as [|a s IH]; simpl.
  - by rewrite bool_decide_true.
  - by rewrite IH.
Qed.

(** X6.  [_basename] does not see a trailing separator, be it
    [os.path.sep] or [os.path.altsep]: a path with one more separator at
    its end has the same base name, on every platform. *)
Theorem basename_ignores_trailing_separator (path : string) (c : ascii) :
  c ∈ sep_chars ->
  _basename (String.append path (String c EmptyString)) = _basename path.
Proof. intros Hc. unfold _basename. by rewrite rstrip_snoc. Qed.

End BasenameFacts.

Lemma posix_has_slash_basename (p : string) :
  Posix.has_slash (Posix.basename p) = false.
Proof.
  induction p as [|c p IH]; simpl; [done|].
  destruct (Posix.has_slash p) eqn:Hp; [done|].
  case_bool_decide; [done|]. simpl.
  by rewrite bool_decide_false, Hp.
Qed.

Lemma posix_basename_plain (b : string) :
  Posix.has_slash b = false -> Posix.basename b = b.
Proof.
  destruct b as [|c b]; simpl; [done|].
  intros [Hc Hb]%orb_false_elim. rewrite Hb.
  by rewrite Hc.
Qed.

Lemma posix_has_slash_app (x b : string) :
  Posix.has_slash (String.append x (String Posix.slash b)) = true.
Proof.
  induction x as [|a x IH]; simpl.
  - done.
  - rewrite IH. apply orb_true_r.
Qed.

Lemma posix_basename_app (x b : string) :
  Posix.has_slash b = false ->
  Posix.basename (String.append x (String Posix.slash b)) = b.
Proof.
  intros Hb. induction x as [|a x IH]; simpl.
  - by rewrite Hb.
  - by rewrite posix_has_slash_app.
Qed.

Lemma posix_ends_with_slash_inv (a : string) :
  Posix.ends_with_slash a = true ->
  ∃ a', a = String.append a' (String Posix.slash EmptyString).
Proof.
  induction a as [|c a IH]; [done|].
  destruct a as [|c' a].
  - simpl. intros ->%bool_decide_eq_true. by exists EmptyString.
  - intros Hends. destruct (IH Hends) as [a' ->].
    by exists (String c a').
Qed.

Lemma string_append_cons (a : ascii) (x y : string) :
  String.append (String a x) y = String a (String.append x y).
Proof. reflexivity. Qed.

Lemma string_append_assoc (x y z : string) :
  String.append (String.append x y) z = String.append x (String.append y z).
Proof.
  induction x as [|a x IH]; [done|].
  by rewrite !string_append_cons, IH.
Qed.

Lemma rstrip_plain (b : string) :
  Posix.has_slash b = false -> rstrip [Posix.slash] b = b.
Proof.
  induction b as [|c b IH]; simpl; [done|].
  intros [Hc%bool_decide_eq_false Hb]%orb_false_elim.
  rewrite IH by done. destruct b; [|done].
  rewrite bool_decide_false; [done|].
  by intros ->%list_elem_of_singleton.
Qed.

Lemma rstrip_app_plain (x b : string) :
  Posix.has_slash b = false -> b ≠ EmptyString ->
  rstrip [Posix.slash] (String.append x b) = String.append x b.
Proof.
  intros Hb Hne. induction x as [|a x IH]; simpl.
  - by apply rstrip_plain.
  - rewrite IH, string_append_cons.
    destruct (String.append x b) eqn:Happ; [|done].
    destruct x as [|a' x']; [change (b = EmptyString) in Happ; done|discriminate Happ].
Qed.

(** The base name of what [posixpath.join] makes of a directory and a
    plain name is the name. *)
Lemma posix_basename_join (d b : string) :
  Posix.has_slash b = false -> b ≠ EmptyString ->
  ∃ x, Posix.join d b = String.append x b
       ∧ Posix.basename (String.append x b) = b.
Proof.
  intros Hb Hne. unfold Posix.join.
  destruct b as [|c b]; [done|].
  apply orb_false_elim in Hb as Hcb. destruct Hcb as [Hc Hb'].
  simpl in Hc. rewrite Hc.
  destruct (bool_decide (d = EmptyString)) eqn:Hd; simpl.
  - apply bool_decide_eq_true in Hd as ->. exists EmptyString. split; [done|].
    by apply posix_basename_plain.
  - destruct (Posix.ends_with_slash d) eqn:Hends.
    + exists d. split; [done|].
      apply posix_ends_with_slash_inv in Hends as [d' ->].
      rewrite string_append_assoc, string_append_cons.
      by apply posix_basename_app.
    + exists (String.append d (String Posix.slash EmptyString)).
      rewrite string_append_assoc, string_append_cons. split; [done|].
      by apply posix_basename_app.
Qed.

(** X7.  On POSIX a job built for a destination directory is given the
    path [directory/name], where [name] is the base name of the source,
    and that path has the same base name: the copy keeps the name of
    the file. *)
Theorem transfer_init_keeps_name (fs0 : FileSystem) (source dir uuid : string)
    (declared : Z) :
  os_path_isdir fs0 dir = true ->
  _basename source ≠ EmptyString ->
  dst (Transfer_init fs0 source dir declared uuid) = Posix.join dir (_basename source)
  ∧ _basename (dst (Transfer_init fs0 source dir declared uuid)) = _basename source.
Proof.
  intros Hdir Hne. unfold Transfer_init. simpl. rewrite Hdir.
  split; [done|].
  assert (Posix.has_slash (_basename source) = false) as Hplain
    by apply posix_has_slash_basename.
  destruct (posix_basename_join dir (_basename source) Hplain Hne) as (x & Hjoin & Hbase).
  change (Posix.basename (rstrip sep_chars source)) with (_basename source).
  rewrite Hjoin. change sep_chars with [Posix.slash].
  by rewrite rstrip_app_plain.
Qed.

(** ** The duplicate check of the manager *)

Lemma remaining_lookup (ws : list Transfer) (k : string) :
  foldl (λ m w, <[src w := (src w, dst w)]> m)
        (∅ : gmap string (string * string)) ws !! k
  = (λ w, (src w, dst w)) <$> last (filter (λ w, src w = k) ws).
Proof.
  induction ws as [|x ws IH] using rev_ind; [done|].
  rewrite foldl_app, filter_app. simpl.
  destruct (decide (src x = k)) as [Hx|Hx].
  - rewrite filter_cons_True by done. rewrite filter_nil.
    rewrite last_snoc. simpl. rewrite <- Hx. apply lookup_insert_eq.
  - rewrite filter_cons_False by done. rewrite filter_nil, app_nil_r.
    by rewrite lookup_insert_ne.
Qed.

Lemma is_valid_last (s : WorkerManager) (worker : Transfer) :
  is_valid s worker = false
  ↔ ∃ x, last (filter (λ w, src w = src worker) (active_objects s)) = Some x
         ∧ dst x = dst worker.
Proof.
  unfold is_valid. rewrite remaining_lookup.
  destruct (last _) as [x|] eqn:Hlast; simpl.
  - assert (src x = src worker) as Hsrc.
    { apply last_Some_elem_of, list_elem_of_filter in Hlast. by destruct Hlast. }
    rewrite (bool_decide_true _ Hsrc). simpl.
    case_bool_decide as Hdst; split.
    + intros _. by exists x.
    + done.
    + done.
    + intros (y & [= <-] & Hy). done.
  - split; [done|]. by intros (x & [=] & _).
Qed.

(** X8.  What [is_valid] compares a submission with: the active job with
    the same source that was registered last, and no other.  The
    submission is rejected exactly when that job has the same
    destination. *)
Theorem is_valid_compares_with_last (s : WorkerManager) (worker : Transfer) :
  is_valid s worker = false
  ↔ ∃ x, last (filter (λ w, src w = src worker) (active_objects s)) = Some x
         ∧ dst x = dst worker.
Proof. apply is_valid_last. Qed.

Lemma filter_src_none (ws : list Transfer) (k : string) :
  k ∉ src <$> ws -> filter (λ w, src w = k) ws = [].
Proof.
  induction ws as [|a ws IH]; intros Hk; [done|].
  simpl in Hk. apply not_elem_of_cons in Hk as [Hne Hk].
  rewrite filter_cons_False by done. by apply IH.
Qed.

Lemma filter_src_unique (ws : list Transfer) (x : Transfer) :
  NoDup (src <$> ws) -> x ∈ ws -> filter (λ w, src w = src x) ws = [x].
Proof.
  induction ws as [|a ws IH]; intros Hnd Hin.
  { by apply elem_of_nil in Hin. }
  simpl in Hnd. apply NoDup_cons in Hnd as [Ha Hnd].
  apply elem_of_cons in Hin as [->|Hin].
  - rewrite filter_cons_True by done. f_equal. by apply filter_src_none.
  - rewrite filter_cons_False; [by apply IH|].
    intros Hsrc. apply Ha. rewrite Hsrc. by apply list_elem_of_fmap_2.
Qed.

(** X9.  When the active jobs have pairwise different sources the
    duplicate check is exact: a submission is rejected if and only if an
    active job has the same source and the same destination. *)
Theorem is_valid_exact_for_distinct_sources (s : WorkerManager) (worker : Transfer) :
  NoDup (src <$> active_objects s) ->
  (is_valid s worker = false
   ↔ ∃ x, x ∈ active_objects s ∧ src x = src worker ∧ dst x = dst worker).
Proof.
  intros Hnd. rewrite is_valid_last. split.
  - intros (x & Hlast & Hdst). exists x.
    apply last_Some_elem_of, list_elem_of_filter in Hlast as [Hsrc Hin]. done.
  - intros (x & Hin & Hsrc & Hdst). exists x. split; [|done].
    rewrite <- Hsrc, filter_src_unique by done. done.
Qed.

(** ** The finished-event handler, in full *)

(** X10.  When [done] raises: exactly when the active-job map holds some
    job but not the one that finished, and then it is a [KeyError] for
    that job id; an empty map, or a map that holds the job, never makes
    it raise. *)
Theorem done_raises_iff (s : WorkerManager) (job : string) (e : PyExn) :
  done s job = Raised e
  ↔ e = KeyError job
    ∧ _active_workers s ≠ []
    ∧ job ∉ PyDict.keys (_active_workers s).
Proof.
  split.
  - unfold done. destruct (_active_workers s) as [|kv a] eqn:Ha.
    { destruct (all_100 _ && _); done. }
    destruct (PyDict.del job (kv :: a)) as [d|] eqn:Hdel.
    { destruct (all_100 _ && _); done. }
    intros [= <-]. split; [done|]. split; [done|].
    intros Hin. apply dict_del_is_Some in Hin as [d Hd]. congruence.
  - intros (-> & Hne & Habs). by apply done_absent_raises.
Qed.

Lemma dict_del_others {V} (k : string) (d d' : list (string * V)) :
  PyDict.del k d = Some d' ->
  filter (λ kv, kv.1 ≠ k) d' = filter (λ kv, kv.1 ≠ k) d.
Proof.
  revert d'. induction d as [|[k' v] d IH]; intros d'; simpl; [done|].
  case_bool_decide as Hk.
  - intros [= <-]. rewrite filter_cons_False; [done|]. simpl. by intros ?.
  - destruct (PyDict.del k d) as [d''|]; [|done]. intros [= <-].
    rewrite !filter_cons_True by done. by rewrite (IH d'' eq_refl).
Qed.

(** X11.  What [done] does when it returns.  The entries of the other
    jobs stay, in their order, and the heap, the pool and the
    connections are not touched.  Either nothing else changes, or the
    batch ends: that happens only when the active-job map has become
    empty and every tracked percentage is 100, and then the maps are
    cleared, the counts are zero, the duplicates are flushed, the window
    is hidden and [all_done] is emitted once. *)
Theorem done_returned_effects (s s' : WorkerManager) (job : string) :
  done s job = Returned s' ->
  filter (λ kv, kv.1 ≠ job) (_active_workers s')
  = filter (λ kv, kv.1 ≠ job) (_active_workers s)
  ∧ heap s' = heap s
  ∧ files_threadpool s' = files_threadpool s
  ∧ connections s' = connections s
  ∧ ((all_done_emitted s' = all_done_emitted s
      ∧ _workers_progress s' = _workers_progress s
      ∧ _transferred s' = _transferred s
      ∧ total_workers s' = total_workers s
      ∧ total_size s' = total_size s
      ∧ duplicates s' = duplicates s
      ∧ dup_windows s' = dup_windows s
      ∧ shown s' = shown s)
     ∨ (all_done_emitted s' = S (all_done_emitted s)
        ∧ _active_workers s' = []
        ∧ map_Forall (λ _ v, v = 100) (_workers_progress s)
        ∧ _workers_progress s' = ∅
        ∧ _transferred s' = ∅
        ∧ total_workers s' = 0
        ∧ total_size s' = 0
        ∧ duplicates s' = []
        ∧ dup_windows s'
          = dup_windows s ++ match duplicates s with [] => [] | ds => [ds] end
        ∧ shown s' = false)).
Proof.
  unfold done.
  destruct (match _active_workers s with
            | [] => Some []
            | _ :: _ => PyDict.del job (_active_workers s)
            end) as [a|] eqn:Hdel.
  2:{ destruct (_active_workers s); [done|]. by rewrite Hdel. }
  assert (filter (λ kv, kv.1 ≠ job) a
          = filter (λ kv, kv.1 ≠ job) (_active_workers s)) as Hf.
  { destruct (_active_workers s) as [|kv d] eqn:Ha; [by injection Hdel as <-|].
    by apply dict_del_others in Hdel. }
  assert (match _active_workers s with
          | [] => Some []
          | kv :: d => PyDict.del job (kv :: d)
          end = Some a) as ->.
  { by destruct (_active_workers s). }
  destruct (all_100 _ && bool_decide _) eqn:Hall; intros [= <-]; simpl.
  - apply andb_prop in Hall as [H100%bool_decide_eq_true Hempty%bool_decide_eq_true].
    simpl in *. subst a. repeat split; try done. right. repeat split; try done.
    by destruct (duplicates s); rewrite ?app_nil_r.
  - repeat split; try done. left. repeat split; done.
Qed.

(** ** A job and the manager together *)

Lemma handle_all_app (s : WorkerManager) (es1 es2 : list Event) :
  handle_all s (es1 ++ es2)
  = match handle_all s es1 with
    | Returned s' => handle_all s' es2
    | Raised e => Raised e
    end.
Proof.
  revert s. induction es1 as [|e es1 IH]; intros s; simpl; [done|].
  destruct (handle s e); [apply IH|done].
Qed.

(** The reports of one job, delivered in order: no slot raises, the
    last percentage and the last byte count are what the maps hold for
    the job, the duplicates are appended, the rest is untouched. *)
Lemma handle_reports (job : string) (body : list Signal) :
  Forall (λ sig, is_report job sig = true) body ->
  ∀ s, ∃ s',
    handle_all s (deliver <$> body) = Returned s'
    ∧ _active_workers s' = _active_workers s
    ∧ total_workers s' = total_workers s
    ∧ total_size s' = total_size s
    ∧ all_done_emitted s' = all_done_emitted s
    ∧ dup_windows s' = dup_windows s
    ∧ shown s' = shown s
    ∧ heap s' = heap s
    ∧ duplicates s' = duplicates s ++ duplicate_files body
    ∧ _workers_progress s'
      = match last (progress_values body) with
        | Some p => <[job := p]> (_workers_progress s)
        | None => _workers_progress s
        end
    ∧ _transferred s'
      = match last (transferred_values body) with
        | Some n => <[job := n]> (_transferred s)
        | None => _transferred s
        end.
Proof.
  induction 1 as [|sig body Hsig Hbody IH]; intros s.
  { exists s. simpl. rewrite app_nil_r. repeat split; done. }
  destruct sig as [j|j p|j n|f]; simpl in Hsig; try done;
    try apply bool_decide_eq_true in Hsig as ->.
  - destruct (IH (receive_progress s job p))
      as (s' & Hrun & Ha & Htw & Hts & Had & Hdw & Hsh & Hh & Hd & Hp & Ht).
    exists s'. rewrite fmap_cons. cbn [handle_all deliver handle].
    rewrite Hrun, Ha, Htw, Hts, Had, Hdw, Hsh, Hh, Hd, Hp, Ht.
    simpl. repeat split; try done.
    rewrite last_cons. destruct (last (progress_values body)); [|done].
    apply insert_insert_eq.
  - destruct (IH (receive_transferred s job n))
      as (s' & Hrun & Ha & Htw & Hts & Had & Hdw & Hsh & Hh & Hd & Hp & Ht).
    exists s'. rewrite fmap_cons. cbn [handle_all deliver handle].
    rewrite Hrun, Ha, Htw, Hts, Had, Hdw, Hsh, Hh, Hd, Hp, Ht.
    simpl. repeat split; try done.
    rewrite last_cons. destruct (last (transferred_values body)); [|done].
    apply insert_insert_eq.
  - destruct (IH (receive_dups s f))
      as (s' & Hrun & Ha & Htw & Hts & Had & Hdw & Hsh & Hh & Hd & Hp & Ht).
    exists s'. rewrite fmap_cons. cbn [handle_all deliver handle].
    rewrite Hrun, Ha, Htw, Hts, Had, Hdw, Hsh, Hh, Hd, Hp, Ht.
    simpl. rewrite <- app_assoc. repeat split; done.
Qed.

Lemma enqueue_idle (objects : gmap nat Transfer) (r : nat) (job : Transfer) :
  objects !! r = Some job ->
  enqueue (WorkerManager_init objects) r
  = {| _workers_progress := ∅;
       _active_workers := [(job_id job, r)];
       _transferred := ∅;
       total_workers := 1;
       total_size := size job;
       duplicates := [];
       files_threadpool := {| maxThreadCount := 1; executing := [r]; queued := [] |};
       connections := [(r, sig_progress); (r, sig_finished);
                       (r, sig_transferred); (r, sig_duplicate)];
       shown := true;
       all_done_emitted := 0%nat;
       dup_windows := [];
       heap := objects |}.
Proof. intros Hr. unfold enqueue. simpl. rewrite Hr. reflexivity. Qed.


(** ** A stale size, and a dropped file *)

Section StaleAndDropped.
Context `{Platform}.

Lemma file_exists_false_distinct (fs0 : FileSystem) (self : Transfer) (data : list byte) :
  file_exists fs0 (src self) (dst self) = false ->
  open_rb fs0 (src self) = inl data ->
  src self ≠ dst self.
Proof.
  unfold file_exists, open_rb, os_path_exists. intros Hex Hopen Heq.
  rewrite <- Heq in Hex.
  destruct (bool_decide (src self ∈ read_denied fs0)); [done|].
  destruct (os_path_isdir fs0 (src self)) eqn:Hdir; [done|].
  destruct (files fs0 !! src self) eqn:Hfile; [|done].
  unfold os_path_isdir in Hdir. rewrite Hdir in Hex. simpl in Hex.
  rewrite ?bool_decide_true in Hex by (by eexists). done.
Qed.

Lemma py_int_truediv_1 (a : Z) : py_int (py_truediv a 1) = a.
Proof.
  unfold py_int, py_truediv, Qdiv, Qmult, Qinv, inject_Z. simpl.
  rewrite Z.mul_1_r. apply Z.quot_1_r.
Qed.

(** While less than the declared size has been moved, every percentage
    is below 100. *)
Lemma chunk_signals_below_100 (self : Transfer) (k : nat) (m : nat) :
  ∀ moved fsrc,
    0 <= moved ->
    moved + Z.of_nat (length fsrc) < size self ->
    Forall (λ p, 0 <= p < 100) (progress_values (chunk_signals self k moved fsrc m)).
Proof.
  induction m as [|m IH]; intros moved fsrc Hmoved Hstale; [apply Forall_nil_2|].
  assert (Z.of_nat (length (take k fsrc)) + Z.of_nat (length (drop k fsrc))
          = Z.of_nat (length fsrc)) as Hsplit.
  { rewrite <- Nat2Z.inj_add, <- length_app, take_drop. done. }
  change (progress_values (chunk_signals self k moved fsrc (S m)))
    with (percentage (moved + Z.of_nat (length (take k fsrc))) self
          :: progress_values
               (chunk_signals self k (moved + Z.of_nat (length (take k fsrc)))
                  (drop k fsrc) m)).
  apply Forall_cons_2; [|apply IH; lia].
  rewrite percentage_quot by lia. split.
  - apply Z.quot_pos; lia.
  - apply Z.quot_lt_upper_bound; lia.
Qed.

(** X13.  A stale size is never reported as complete.  When the source
    yields fewer bytes than the worker declares (and at least one), an
    undisturbed copy succeeds and the destination holds all the bytes of
    the source, yet every percentage the job emits is below 100: the last
    one is the percentage of the bytes read, and the job ends with
    [finished] without a progress event of 100. *)
Theorem stale_size_never_reports_100 (job : Transfer) (E : Env) (w : World)
    (data : list byte) (fs1 : FileSystem) :
  file_exists (fs w) (src job) (dst job) = false ->
  open_rb (fs w) (src job) = inl data ->
  open_wb (fs w) (dst job) = inl fs1 ->
  data ≠ [] ->
  Z.of_nat (length data) < size job ->
  (∀ j, (1 <= j <= 1 + chunk_count (Z.to_nat (Z.min 1048576 (size job))) data)%nat ->
        read_fails E j = false) ->
  (∀ j, (1 <= j < 1 + chunk_count (Z.to_nat (Z.min 1048576 (size job))) data)%nat ->
        write_fails E j = false ∧ cancel_req E j = false) ->
  ∃ w' sigs,
    run E job w = Some (set_running false job, w', Returned ())
    ∧ emitted w' = emitted w ++ sigs
    ∧ files (fs w') !! dst job = Some data
    ∧ last sigs = Some (finished (job_id job))
    ∧ Forall (λ p, 0 <= p < 100) (progress_values sigs)
    ∧ last (progress_values sigs) = Some (percentage (Z.of_nat (length data)) job)
    ∧ percentage (Z.of_nat (length data)) job < 100.
Proof.
  intros Hex Hsrc Hdst Hne Hstale Hread Hquiet.
  assert (0 < size job) as Hsize by lia.
  pose proof (file_exists_false_distinct _ _ _ Hex Hsrc) as Hdistinct.
  destruct (copy_success_general E job w data fs1 Hsize Hdistinct Hsrc Hdst Hread Hquiet)
    as (w' & Hcopy & Hfiles & Hsig & _).
  set (k := Z.to_nat (Z.min 1048576 (size job))) in *.
  assert (0 < k)%nat as Hk by (unfold k; lia).
  set (body := chunk_signals job k 0 data (chunk_count k data)) in *.
  assert (percentage (Z.of_nat (length data)) job < 100) as Hpct.
  { rewrite percentage_quot by done.
    apply Z.quot_lt_upper_bound; lia. }
  destruct (chunk_signals_last job k Hk (length data) data 0 (le_n _) Hne) as [_ Hlastp].
  fold body in Hlastp. rewrite Z.add_0_l in Hlastp.
  exists w', (body ++ [finished (job_id job)]).
  split; [unfold run; by rewrite Hex, Hcopy|].
  split; [done|]. split; [by rewrite Hfiles, lookup_insert_eq|].
  split; [apply last_snoc|].
  rewrite progress_values_app. cbn [progress_values omap list_omap].
  rewrite app_nil_r. split; [|done].
  apply chunk_signals_below_100; lia.
Qed.

Variable dir_size : string -> Z.

(** X14.  A file handed to [createWorker].  On a regular file
    [createWorker] returns; on a fresh manager it registers one worker,
    placed at the new address, whose source is the file, whose declared
    size is the length of the file and whose identifier is the key of the
    active-job map; the job is counted, its size is the total size, the
    pool has started it and the transfer window is shown. *)
Theorem create_worker_registers_file (fs0 : FileSystem) (objects : gmap nat Transfer)
    (r : nat) (uuid source target : string) :
  objects !! r = None ->
  os_path_isfile fs0 source = true ->
  ∃ data job s1,
    files fs0 !! source = Some data
    ∧ job = Transfer_init fs0 source target (Z.of_nat (length data)) uuid
    ∧ src job = source
    ∧ size job = Z.of_nat (length data)
    ∧ job_id job = uuid
    ∧ createWorker dir_size fs0 uuid r (WorkerManager_init objects) source target
      = Returned s1
    ∧ heap s1 = <[r := job]> objects
    ∧ _active_workers s1 = [(uuid, r)]
    ∧ total_workers s1 = 1
    ∧ total_size s1 = Z.of_nat (length data)
    ∧ executing (files_threadpool s1) = [r]
    ∧ shown s1 = true.
Proof.
  intros _ [Hdir [data Hdata]%bool_decide_eq_true]%andb_prop.
  apply negb_true_iff in Hdir.
  exists data, (Transfer_init fs0 source target (Z.of_nat (length data)) uuid).
  unfold createWorker, os_path_getsize. rewrite Hdir, Hdata.
  eexists. split; [done|]. split; [done|].
  split; [done|]. split; [done|]. split; [done|]. split; [reflexivity|].
  change (allocate r ?worker (WorkerManager_init objects))
    with (WorkerManager_init (<[r := worker]> objects)).
  rewrite (enqueue_idle _ r _ (lookup_insert_eq _ _ _)).
  repeat split; done.
Qed.

End StaleAndDropped.

(** Reports leave the pool alone. *)
Lemma handle_reports_pool (job : string) (body : list Signal) :
  Forall (λ sig, is_report job sig = true) body ->
  ∀ s s', handle_all s (deliver <$> body) = Returned s' ->
    files_threadpool s' = files_threadpool s.
Proof.
  induction 1 as [|sig body Hsig Hbody IH]; intros s s'.
  - simpl. intros Hrun. by injection Hrun as <-.
  - rewrite fmap_cons. cbn [handle_all].
    destruct sig; simpl in Hsig; try done; cbn [deliver handle];
      intros Hrun; by rewrite (IH _ _ Hrun).
Qed.

(** ** Cancel, the display, and the job count *)

(** X15.  A cancelled job ends its batch.  A sole job is submitted and
    reports; Cancel is pressed; the job, which was still copying, sends
    its last reports, the last percentage being 100, and [finished].  No
    slot raises - the job id is no longer in the map, but the map is
    empty - the [running] flag of the worker is off, the queue of the
    pool is empty, and the manager is idle again with [all_done] emitted
    once. *)
Theorem cancelled_job_batch_completes (objects : gmap nat Transfer) (r : nat)
    (job : Transfer) (before after : list Signal) :
  objects !! r = Some job ->
  Forall (λ sig, is_report (job_id job) sig = true) before ->
  Forall (λ sig, is_report (job_id job) sig = true) after ->
  last (progress_values after) = Some 100 ->
  ∃ s', handle_all (enqueue (WorkerManager_init objects) r)
          ((deliver <$> before) ++ ev_cancel :: (deliver <$> after)
           ++ [ev_finished (job_id job)])
        = Returned s'
        ∧ running <$> heap s' !! r = Some false
        ∧ queued (files_threadpool s') = []
        ∧ _active_workers s' = []
        ∧ _workers_progress s' = ∅
        ∧ _transferred s' = ∅
        ∧ total_workers s' = 0
        ∧ all_done_emitted s' = 1%nat
        ∧ shown s' = false.
Proof.
  intros Hr Hbefore Hafter Hlast.
  rewrite (enqueue_idle objects r job Hr), handle_all_app.
  destruct (handle_reports (job_id job) before Hbefore
              {| _workers_progress := ∅;
                 _active_workers := [(job_id job, r)];
                 _transferred := ∅;
                 total_workers := 1;
                 total_size := size job;
                 duplicates := [];
                 files_threadpool :=
                   {| maxThreadCount := 1; executing := [r]; queued := [] |};
                 connections := [(r, sig_progress); (r, sig_finished);
                                 (r, sig_transferred); (r, sig_duplicate)];
                 shown := true;
                 all_done_emitted := 0%nat;
                 dup_windows := [];
                 heap := objects |})
    as (s2 & -> & Ha & Htw & Hts & Had & Hdw & Hsh & Hh & Hd & Hp & Ht).
  cbn [handle_all handle]. rewrite handle_all_app.
  destruct (handle_reports (job_id job) after Hafter (cancel s2))
    as (s3 & Hrun3 & Ha3 & Htw3 & Hts3 & Had3 & Hdw3 & Hsh3 & Hh3 & Hd3 & Hp3 & Ht3).
  rewrite Hrun3. rewrite Hlast in Hp3. simpl in Ha3, Had3, Hsh3, Hh3, Hp3, Htw3.
  assert (all_100 (_workers_progress s3) = true) as H100.
  { apply bool_decide_eq_true. rewrite Hp3, Hp. simpl.
    destruct (last (progress_values before)).
    - rewrite insert_insert_eq. apply map_Forall_insert_2; [done|apply map_Forall_empty].
    - apply map_Forall_insert_2; [done|apply map_Forall_empty]. }
  cbn [handle_all handle]. unfold done. rewrite Ha3.
  cbn [_workers_progress set_active _active_workers]. rewrite H100.
  rewrite bool_decide_true by done. cbn [andb].
  eexists. split; [reflexivity|].
  cbn [heap files_threadpool _active_workers _workers_progress _transferred
       total_workers all_done_emitted shown batch_done set_active].
  rewrite Hh3, Ha, Hh, Had3, Had. simpl.
  rewrite lookup_alter, decide_True, Hr by done. repeat split; try done.
  (* the pool *)
  by rewrite (handle_reports_pool _ _ Hafter _ _ Hrun3).
Qed.

(** What the manager holds after the reports of its only job. *)
Lemma sole_job_reports (objects : gmap nat Transfer) (r : nat) (job : Transfer)
    (body : list Signal) :
  objects !! r = Some job ->
  Forall (λ sig, is_report (job_id job) sig = true) body ->
  ∃ s', handle_all (enqueue (WorkerManager_init objects) r) (deliver <$> body)
        = Returned s'
        ∧ _active_workers s' = [(job_id job, r)]
        ∧ total_workers s' = 1
        ∧ total_size s' = size job
        ∧ all_done_emitted s' = 0%nat
        ∧ dup_windows s' = []
        ∧ shown s' = true
        ∧ heap s' = objects
        ∧ duplicates s' = duplicate_files body
        ∧ _workers_progress s'
          = match last (progress_values body) with
            | Some p => <[job_id job := p]> ∅
            | None => ∅
            end
        ∧ _transferred s'
          = match last (transferred_values body) with
            | Some n => <[job_id job := n]> ∅
            | None => ∅
            end.
Proof.
  intros Hr Hbody. rewrite (enqueue_idle objects r job Hr).
  destruct (handle_reports (job_id job) body Hbody
              {| _workers_progress := ∅;
                 _active_workers := [(job_id job, r)];
                 _transferred := ∅;
                 total_workers := 1;
                 total_size := size job;
                 duplicates := [];
                 files_threadpool :=
                   {| maxThreadCount := 1; executing := [r]; queued := [] |};
                 connections := [(r, sig_progress); (r, sig_finished);
                                 (r, sig_transferred); (r, sig_duplicate)];
                 shown := true;
                 all_done_emitted := 0%nat;
                 dup_windows := [];
                 heap := objects |})
    as (s' & Hrun & Ha & Htw & Hts & Had & Hdw & Hsh & Hh & Hd & Hp & Ht).
  exists s'. by repeat split.
Qed.

(** X12.  When a batch of one job ends.  A sole job is submitted to a
    fresh manager; its reports reach the slots with whatever values, and
    then its [finished].  No slot raises and the job is no longer
    active.  The batch ends - maps cleared, counts at zero, [all_done]
    emitted once, the duplicates shown in one window, the transfer window
    hidden - exactly when the last percentage received is 100, or none
    was received; when the last percentage received is another value,
    the batch stays open: the percentage stays tracked, the job stays
    counted, [all_done] is not emitted, the duplicates are not shown
    and the window stays up. *)
Theorem sole_job_batch_ends_iff_last_100 (objects : gmap nat Transfer) (r : nat)
    (job : Transfer) (body : list Signal) :
  objects !! r = Some job ->
  Forall (λ sig, is_report (job_id job) sig = true) body ->
  ∃ s', handle_all (enqueue (WorkerManager_init objects) r)
          ((deliver <$> body) ++ [ev_finished (job_id job)])
        = Returned s'
        ∧ _active_workers s' = []
        ∧ heap s' = objects
        ∧ ((∀ p, last (progress_values body) = Some p -> p = 100) ->
           _workers_progress s' = ∅
           ∧ _transferred s' = ∅
           ∧ total_workers s' = 0
           ∧ total_size s' = 0
           ∧ duplicates s' = []
           ∧ dup_windows s' = match duplicate_files body with [] => [] | ds => [ds] end
           ∧ all_done_emitted s' = 1%nat
           ∧ shown s' = false)
        ∧ (∀ p, last (progress_values body) = Some p -> p ≠ 100 ->
           _workers_progress s' = <[job_id job := p]> ∅
           ∧ total_workers s' = 1
           ∧ total_size s' = size job
           ∧ duplicates s' = duplicate_files body
           ∧ dup_windows s' = []
           ∧ all_done_emitted s' = 0%nat
           ∧ shown s' = true).
Proof.
  intros Hr Hbody. rewrite handle_all_app.
  destruct (sole_job_reports objects r job body Hr Hbody)
    as (s2 & -> & Ha & Htw & Hts & Had & Hdw & Hsh & Hh & Hd & Hp & Ht).
  cbn [handle_all handle]. unfold done. rewrite Ha.
  cbn [PyDict.del]. rewrite bool_decide_true by done.
  cbn [_workers_progress set_active _active_workers].
  rewrite (bool_decide_true ([] = [])) by done.
  destruct (all_100 (_workers_progress s2)) eqn:H100; cbn [andb].
  - apply bool_decide_eq_true in H100. rewrite Hp in H100.
    eexists. split; [reflexivity|].
    cbn [batch_done set_active _active_workers heap _workers_progress _transferred
         total_workers total_size duplicates dup_windows all_done_emitted shown].
    rewrite Hh, Hd, Hdw, Had. split; [done|]. split; [done|]. split.
    + intros _. repeat split; done.
    + intros p Hlast Hp100. rewrite Hlast in H100.
      specialize (H100 (job_id job) p (lookup_insert_eq _ _ _)). done.
  - apply bool_decide_eq_false in H100. rewrite Hp in H100.
    eexists. split; [reflexivity|].
    cbn [set_active _active_workers heap _workers_progress _transferred
         total_workers total_size duplicates dup_windows all_done_emitted shown].
    rewrite Hh, Hd, Hdw, Had, Hp, Htw, Hts, Hsh. split; [done|]. split; [done|]. split.
    + intros Hlast. exfalso. apply H100.
      destruct (last (progress_values body)) as [p|]; [|apply map_Forall_empty].
      rewrite (Hlast p eq_refl).
      apply map_Forall_insert_2; [done|apply map_Forall_empty].
    + intros p Hlast _. rewrite Hlast. repeat split; done.
Qed.

(** X16.  What a timer tick displays for a sole job.  Once reports of the
    only job of a batch have reached the slots, the last percentage
    received being [p] and the last byte count [n], a timer tick hands
    [p] to the progress bar, shows the declared size of the job minus [n]
    as what remains, and one remaining file. *)
Theorem sole_job_display (objects : gmap nat Transfer) (r : nat)
    (job : Transfer) (body : list Signal) (p n : Z) :
  objects !! r = Some job ->
  Forall (λ sig, is_report (job_id job) sig = true) body ->
  last (progress_values body) = Some p ->
  last (transferred_values body) = Some n ->
  ∃ s', handle_all (enqueue (WorkerManager_init objects) r) (deliver <$> body)
        = Returned s'
        ∧ bar_value (refresh_progress s') = p
        ∧ remaining_bytes (refresh_progress s') = size job - n
        ∧ remaining_files (refresh_progress s') = 1.
Proof.
  intros Hr Hbody Hlp Hlt.
  destruct (sole_job_reports objects r job body Hr Hbody)
    as (s' & Hrun & Ha & Htw & Hts & Had & Hdw & Hsh & Hh & Hd & Hp & Ht).
  rewrite Hlp in Hp. rewrite Hlt in Ht.
  exists s'. split; [done|].
  unfold refresh_progress, calculate_progress, calculate_transferred.
  cbn [bar_value remaining_bytes remaining_files].
  rewrite Ha, Htw, Hts, Hp, Ht.
  rewrite !bool_decide_false by apply insert_non_empty.
  rewrite !sum_values_insert, sum_values_empty, !Z.add_0_r by apply lookup_empty.
  simpl. by rewrite py_int_truediv_1.
Qed.

(** X17.  The job count of a batch.  Along every batch that nobody
    cancels - fresh submissions, percentages of active jobs, [finished]
    after a job's 100 - the manager's job count is the number of jobs that
    are active or have a tracked percentage, no job id is registered
    twice, and every tracked percentage is at most 100. *)
Theorem batch_job_count (objects : gmap nat Transfer) (es : list Event)
    (s : WorkerManager) :
  batch_run (WorkerManager_init objects) es s ->
  total_workers s
  = Z.of_nat (base.size (dom (_workers_progress s)
                         ∪ list_to_set (PyDict.keys (_active_workers s)) : gset string))
  ∧ NoDup (PyDict.keys (_active_workers s))
  ∧ map_Forall (λ _ v, v <= 100) (_workers_progress s).
Proof.
  intros Hrun.
  pose proof (batch_inv_run _ _ _ Hrun (batch_inv_init objects)) as Hinv.
  destruct Hinv as [Hnd Hrange Hcount]. done.
Qed.

(** ** Running a job again *)

Section Rerun.
Context `{Platform}.

(** X19.  A file once copied is not copied again.  After an undisturbed
    copy of a job, a second execution of the same job - whatever happens
    around it - finds the destination, emits [duplicate] with the
    destination path, [progress] 100 and [finished], makes no system call
    and leaves the file system, which holds the source's bytes at the
    destination, as the first execution left it. *)
Theorem second_run_reports_duplicate (E E' : Env) (self : Transfer) (w : World)
    (data : list byte) (fs1 : FileSystem) :
  0 < size self ->
  file_exists (fs w) (src self) (dst self) = false ->
  open_rb (fs w) (src self) = inl data ->
  open_wb (fs w) (dst self) = inl fs1 ->
  (∀ j, (1 <= j <= 1 + chunk_count (Z.to_nat (Z.min 1048576 (size self))) data)%nat ->
        read_fails E j = false) ->
  (∀ j, (1 <= j < 1 + chunk_count (Z.to_nat (Z.min 1048576 (size self))) data)%nat ->
        write_fails E j = false ∧ cancel_req E j = false) ->
  ∃ w1 w2,
    run E self w = Some (set_running false self, w1, Returned ())
    ∧ files (fs w1) !! dst self = Some data
    ∧ run E' (set_running false self) w1 = Some (set_running false self, w2, Returned ())
    ∧ emitted w2 = emitted w1 ++ [duplicate (dst self);
                                  progress (job_id self) 100;
                                  finished (job_id self)]
    ∧ calls w2 = calls w1
    ∧ fs w2 = fs w1.
Proof.
  intros Hsize Hex Hsrc Hdst Hread Hquiet.
  pose proof (file_exists_false_distinct _ _ _ Hex Hsrc) as Hdistinct.
  destruct (copy_success_general E self w data fs1 Hsize Hdistinct Hsrc Hdst Hread Hquiet)
    as (w1 & Hcopy & Hfiles & _).
  destruct (copy_general _ _ _ _ _ _ Hcopy) as (_ & _ & _ & _ & Hdirs & _).
  apply open_wb_inv in Hdst as [Hdir _].
  assert (os_path_isdir (fs w1) (dst self) = false) as Hdir1.
  { unfold os_path_isdir in *. by rewrite Hdirs. }
  assert (os_path_exists (fs w1) (dst self) = true) as Hex1.
  { unfold os_path_exists. rewrite Hfiles, lookup_insert_eq.
    rewrite (bool_decide_true (is_Some (Some data))) by eauto. apply orb_true_r. }
  exists w1. eexists. split; [|split; [|split]].
  - unfold run. by rewrite Hex, Hcopy.
  - by rewrite Hfiles, lookup_insert_eq.
  - unfold run, file_exists. cbn [src dst set_running]. rewrite Hdir1, Hex1. reflexivity.
  - simpl. by rewrite <- !app_assoc.
Qed.

End Rerun.

(** ** Instances on the sample data *)

Lemma copy_success_copies_content_witness :
  ∃ w', copy Sample.quiet Sample2.worker_exact Sample.world
        = Some (set_running false Sample2.worker_exact, w', Returned ON_SUCCESS)
        ∧ files (fs w') !! "/x/e" = Some [Byte.x01; Byte.x02; Byte.x03]
        ∧ emitted w' = [transferred "E" 3; progress "E" 100; finished "E"].
Proof.
  destruct (copy_success_copies_content Sample.quiet Sample2.worker_exact Sample.world
              [Byte.x01; Byte.x02; Byte.x03]
              (set_files (<["/x/e" := []]> (files Sample.disk)) Sample.disk))
    as (w' & Hcopy & Hfiles & Hsig & _).
  - reflexivity.
  - discriminate.
  - vm_compute. reflexivity.
  - vm_compute. reflexivity.
  - intros j Hj. reflexivity.
  - intros j Hj. split; reflexivity.
  - exists w'. split; [exact Hcopy|]. split.
    + rewrite Hfiles. apply lookup_insert_eq.
    + rewrite Hsig. vm_compute. reflexivity.
Defined.


Lemma copy_zero_declared_size_witness :
  ∃ w', copy Sample.quiet Sample2.worker_zero Sample.world
        = Some (set_running false Sample2.worker_zero, w', Returned ON_ERROR)
        ∧ emitted w' = [progress "Q" 100; finished "Q"].
Proof.
  destruct (copy_zero_declared_size Sample.quiet Sample2.worker_zero Sample.world
              [Byte.x01; Byte.x02; Byte.x03]
              (set_files (<["/x/q" := []]> (files Sample.disk)) Sample.disk))
    as (w' & Hcopy & Hsig & _).
  - reflexivity.
  - discriminate.
  - vm_compute. reflexivity.
  - discriminate.
  - vm_compute. reflexivity.
  - reflexivity.
  - reflexivity.
  - exists w'. split; [exact Hcopy|exact Hsig].
Defined.

Lemma basename_ignores_trailing_separator_witness :
  _basename "/dst/folder/" = _basename "/dst/folder".
Proof.
  apply (basename_ignores_trailing_separator "/dst/folder" "/"%char).
  apply elem_of_cons. by left.
Defined.

Lemma transfer_init_keeps_name_witness :
  dst (Transfer_init Sample.disk "/s/a" "/x" 3 "U") = Posix.join "/x" (_basename "/s/a")
  ∧ _basename (dst (Transfer_init Sample.disk "/s/a" "/x" 3 "U")) = _basename "/s/a".
Proof.
  apply transfer_init_keeps_name.
  - vm_compute. reflexivity.
  - vm_compute. discriminate.
Defined.

Lemma is_valid_exact_for_distinct_sources_witness :
  is_valid (enqueue Sample.idle 0%nat) Sample.workerC = false
  ↔ ∃ x, x ∈ active_objects (enqueue Sample.idle 0%nat)
         ∧ src x = src Sample.workerC ∧ dst x = dst Sample.workerC.
Proof.
  apply is_valid_exact_for_distinct_sources.
  apply (bool_decide_unpack _). vm_compute. exact I.
Defined.

Lemma done_returned_effects_witness :
  ∃ s', done (receive_progress (enqueue Sample.idle 0%nat) "A" 100) "A" = Returned s'
        ∧ heap s' = Sample.objects
        ∧ _active_workers s' = [].
Proof.
  eexists. split; [vm_compute; reflexivity|].
  match goal with |- heap ?s' = _ ∧ _ =>
    destruct (done_returned_effects
                (receive_progress (enqueue Sample.idle 0%nat) "A" 100) s' "A")
      as (_ & Hheap & _)
  end.
  - vm_compute. reflexivity.
  - split; [exact Hheap|]. vm_compute. reflexivity.
Defined.

Lemma sole_job_batch_ends_iff_last_100_witness :
  ∃ s', handle_all (enqueue (WorkerManager_init Sample.objects) 0%nat)
          ((deliver <$> [transferred "A" 3; progress "A" 369895632])
           ++ [ev_finished "A"])
        = Returned s'
        ∧ _active_workers s' = []
        ∧ _workers_progress s' = <["A" := 369895632]> ∅
        ∧ total_workers s' = 1
        ∧ all_done_emitted s' = 0%nat
        ∧ shown s' = true.
Proof.
  edestruct (sole_job_batch_ends_iff_last_100 Sample.objects 0%nat Sample.workerA
               [transferred "A" 3; progress "A" 369895632])
    as (s' & Hrun & Ha & _ & _ & Hopen).
  - vm_compute. reflexivity.
  - repeat apply Forall_cons_2; try apply Forall_nil_2; vm_compute; reflexivity.
  - destruct (Hopen 369895632) as (Hp & Htw & _ & _ & _ & Hd & Hs).
    + vm_compute. reflexivity.
    + lia.
    + exists s'. split; [exact Hrun|]. split; [exact Ha|]. split; [exact Hp|].
      split; [exact Htw|]. split; [exact Hd|exact Hs].
Defined.

Lemma stale_size_never_reports_100_witness :
  ∃ w' sigs,
    run Sample.quiet Sample2.worker_stale Sample.world
    = Some (set_running false Sample2.worker_stale, w', Returned ())
    ∧ emitted w' = emitted Sample.world ++ sigs
    ∧ files (fs w') !! "/x/t" = Some [Byte.x01; Byte.x02; Byte.x03]
    ∧ Forall (λ p, 0 <= p < 100) (progress_values sigs)
    ∧ last (progress_values sigs) = Some 60.
Proof.
  destruct (stale_size_never_reports_100 Sample2.worker_stale
              Sample.quiet Sample.world [Byte.x01; Byte.x02; Byte.x03]
              (set_files (<["/x/t" := []]> (files Sample.disk)) Sample.disk))
    as (w' & sigs & Hrun & Hsig & Hfile & _ & Hall & Hlast & _).
  - vm_compute. reflexivity.
  - vm_compute. reflexivity.
  - vm_compute. reflexivity.
  - discriminate.
  - vm_compute. reflexivity.
  - intros j Hj. reflexivity.
  - intros j Hj. split; reflexivity.
  - exists w', sigs. repeat split; assumption.
Defined.

Lemma create_worker_registers_file_witness :
  ∃ data job s1,
    files Sample.disk !! "/s/a" = Some data
    ∧ job = Transfer_init Sample.disk "/s/a" "/x" (Z.of_nat (length data)) "U"
    ∧ createWorker Sample2.dir_size Sample.disk "U" 0%nat (WorkerManager_init ∅)
        "/s/a" "/x" = Returned s1
    ∧ heap s1 = <[0%nat := job]> ∅
    ∧ _active_workers s1 = [("U", 0%nat)]
    ∧ total_size s1 = Z.of_nat (length data).
Proof.
  destruct (create_worker_registers_file Sample2.dir_size Sample.disk ∅ 0%nat
              "U" "/s/a" "/x")
    as (data & job & s1 & Hdata & Hjob & _ & _ & _ & Hcreate & Hheap & Ha & _ & Hsize & _).
  - apply lookup_empty.
  - vm_compute. reflexivity.
  - exists data, job, s1. repeat split; assumption.
Defined.

Lemma cancelled_job_batch_completes_witness :
  ∃ s', handle_all (enqueue (WorkerManager_init Sample.objects) 0%nat)
          ((deliver <$> [transferred "A" 1; progress "A" 33])
           ++ ev_cancel :: (deliver <$> [progress "A" 100]) ++ [ev_finished "A"])
        = Returned s'
        ∧ running <$> heap s' !! 0%nat = Some false
        ∧ _active_workers s' = []
        ∧ all_done_emitted s' = 1%nat.
Proof.
  edestruct (cancelled_job_batch_completes Sample.objects 0%nat Sample.workerA
               [transferred "A" 1; progress "A" 33] [progress "A" 100])
    as (s' & Hrun & Hflag & _ & Ha & _ & _ & _ & Hd & _).
  - vm_compute. reflexivity.
  - repeat apply Forall_cons_2; try apply Forall_nil_2; vm_compute; reflexivity.
  - repeat apply Forall_cons_2; try apply Forall_nil_2; vm_compute; reflexivity.
  - vm_compute. reflexivity.
  - exists s'. split; [exact Hrun|]. split; [exact Hflag|]. split; [exact Ha|exact Hd].
Defined.

Lemma sole_job_display_witness :
  ∃ s', handle_all (enqueue (WorkerManager_init Sample.objects) 0%nat)
          (deliver <$> [transferred "A" 2; progress "A" 66])
        = Returned s'
        ∧ bar_value (refresh_progress s') = 66
        ∧ remaining_bytes (refresh_progress s') = 1.
Proof.
  edestruct (sole_job_display Sample.objects 0%nat Sample.workerA
               [transferred "A" 2; progress "A" 66] 66 2)
    as (s' & Hrun & Hbar & Hbytes & _).
  - vm_compute. reflexivity.
  - repeat apply Forall_cons_2; try apply Forall_nil_2; vm_compute; reflexivity.
  - vm_compute. reflexivity.
  - vm_compute. reflexivity.
  - exists s'. split; [exact Hrun|]. split; [exact Hbar|exact Hbytes].
Defined.


Lemma open_error_escapes_silently_witness :
  ∃ w', run Sample.quiet Sample.workerD Sample.world
        = Some (Sample.workerD, w', Raised IsADirectoryError)
        ∧ dst Sample.workerD = "/x/d"
        ∧ emitted w' = emitted Sample.world
        ∧ fs w' = fs Sample.world.
Proof.
  destruct (open_error_escapes_silently Sample.quiet Sample.workerD Sample.world
              IsADirectoryError)
    as (w' & Hrun & Hsig & Hfs & _).
  - vm_compute. reflexivity.
  - discriminate.
  - right. exists [Byte.x07]. split; vm_compute; reflexivity.
  - exists w'. split; [exact Hrun|]. split; [reflexivity|]. split; [exact Hsig|exact Hfs].
Defined.

Lemma batch_job_count_witness :
  ∃ s, batch_run (WorkerManager_init Sample.objects)
         [ev_enqueue 0%nat; ev_enqueue 1%nat; ev_progress "A" 100; ev_finished "A"] s
       ∧ total_workers s
         = Z.of_nat (base.size (dom (_workers_progress s)
                                ∪ list_to_set (PyDict.keys (_active_workers s))
                                : gset string)).
Proof.
  eexists. split.
  { replay_batch. }
  match goal with |- total_workers ?s = _ =>
    assert (batch_run (WorkerManager_init Sample.objects)
              [ev_enqueue 0%nat; ev_enqueue 1%nat; ev_progress "A" 100;
               ev_finished "A"] s) as Hrun
  end.
  { replay_batch. }
  exact (proj1 (batch_job_count _ _ _ Hrun)).
Defined.

Lemma second_run_reports_duplicate_witness :
  ∃ w1 w2,
    run Sample.quiet Sample2.worker_exact Sample.world
    = Some (set_running false Sample2.worker_exact, w1, Returned ())
    ∧ run Sample.cancel_first (set_running false Sample2.worker_exact) w1
      = Some (set_running false Sample2.worker_exact, w2, Returned ())
    ∧ emitted w2 = emitted w1 ++ [duplicate "/x/e"; progress "E" 100; finished "E"]
    ∧ fs w2 = fs w1.
Proof.
  edestruct (second_run_reports_duplicate Sample.quiet Sample.cancel_first
               Sample2.worker_exact Sample.world)
    as (w1 & w2 & Hrun1 & _ & Hrun2 & Hsig & _ & Hfs).
  - vm_compute. reflexivity.
  - vm_compute. reflexivity.
  - vm_compute. reflexivity.
  - vm_compute. reflexivity.
  - intros j _. reflexivity.
  - intros j _. split; reflexivity.
  - exists w1, w2. split; [exact Hrun1|]. split; [exact Hrun2|].
    split; [exact Hsig|exact Hfs].
Defined.

(** ** A file read in two chunks *)



Lemma C6_cancel_removes_partial_file_witness :
  ∃ w', copy Sample.cancel_first Sample.workerA Sample.world
        = Some (set_running false Sample.workerA, w', Returned ON_CANCEL)
        ∧ emitted w' = [transferred "A" 3; progress "A" 100;
                        progress "A" 100; finished "A"]
        ∧ calls w' = [sys_open_rb "/s/a"; sys_open_wb "/x/a";
                      sys_read 3; sys_write "/x/a" 3; sys_unlink "/x/a"]
        ∧ files (fs w') = delete "/x/a" (files Sample.disk)
        ∧ os_path_exists (fs w') "/x/a" = false.
Proof.
  destruct (C6_cancel_removes_partial_file Sample.cancel_first Sample.workerA
              Sample.world [Byte.x01; Byte.x02; Byte.x03]
              (set_files (<["/x/a" := []]> (files Sample.disk)) Sample.disk))
    as [Hcancel _].
  - reflexivity.
  - vm_compute. reflexivity.
  - vm_compute. reflexivity.
  - apply (Hcancel 1%nat).
    + lia.
    + vm_compute. lia.
    + intros j Hj. split; reflexivity.
    + intros j Hj. lia.
    + reflexivity.
Defined.
